(** * Loopback capture (shared, timer driven): WAV encoder and capture loop

    A shallow embedding of [example/LoopbackCaptureSharedTimerDriven/main.go]:
    the [WAVEFormat] value and its [Bytes] encoder, the duration
    bookkeeping, the override of the negotiated mix format and the
    poll / copy / sleep / release loop, with the audio session as an
    explicit environment and the calls made to it as a trace. *)

From Stdlib Require Import ZArith List Lia Bool.
From Stdlib.Strings Require Import Byte String.
From Stdlib Require Import SpecFloat Reals Lra.
Import ListNotations.
Open Scope Z_scope.

(** ** Fixed-width integers *)

Definition u16 (x : Z) : Z := x mod 2 ^ 16.
Definition u32 (x : Z) : Z := x mod 2 ^ 32.
Definition u64 (x : Z) : Z := x mod 2 ^ 64.

Definition is_u16 (x : Z) : Prop := 0 <= x < 2 ^ 16.
Definition is_u32 (x : Z) : Prop := 0 <= x < 2 ^ 32.

(** ** Package [encoding/binary], as far as [Bytes] uses it *)

Module Binary.

(** The conversion [byte(v)] keeps the low eight bits. *)
Definition byte_of_Z (v : Z) : byte :=
  match Byte.of_N (Z.to_N (Z.land v 255)) with
  | Some b => b
  | None => x00
  end.

Definition Z_of_byte (b : byte) : Z := Z.of_N (Byte.to_N b).

Inductive ByteOrder := BigEndian | LittleEndian.

Definition PutUint16 (o : ByteOrder) (v : Z) : list byte :=
  match o with
  | LittleEndian => [byte_of_Z v; byte_of_Z (Z.shiftr v 8)]
  | BigEndian => [byte_of_Z (Z.shiftr v 8); byte_of_Z v]
  end.

Definition PutUint32 (o : ByteOrder) (v : Z) : list byte :=
  match o with
  | LittleEndian =>
      [byte_of_Z v; byte_of_Z (Z.shiftr v 8);
       byte_of_Z (Z.shiftr v 16); byte_of_Z (Z.shiftr v 24)]
  | BigEndian =>
      [byte_of_Z (Z.shiftr v 24); byte_of_Z (Z.shiftr v 16);
       byte_of_Z (Z.shiftr v 8); byte_of_Z v]
  end.

(** The values [Bytes] hands to [binary.Write]. *)
Inductive data :=
| Uint16 (v : Z)
| Uint32 (v : Z)
| ByteSlice (bs : list byte).

(** [binary.Write(buf, order, d)] on a [bytes.Buffer]: the encoding of
    [d] goes to the end of the buffer.  A byte slice is written as it
    is, whatever the order. *)
Definition Write (buf : list byte) (o : ByteOrder) (d : data) : list byte :=
  buf ++ match d with
         | Uint16 v => PutUint16 o v
         | Uint32 v => PutUint32 o v
         | ByteSlice bs => bs
         end.

End Binary.

(** ** [WAVEFormat] and [Bytes] *)

Record WAVEFormat := mkWAVEFormat {
  FormatTag : Z;        (* uint16 *)
  Channels : Z;         (* uint16 *)
  SamplesPerSec : Z;    (* uint32 *)
  AvgBytesPerSec : Z;   (* uint32 *)
  BlockAlign : Z;       (* uint16 *)
  BitsPerSample : Z;    (* uint16 *)
  DataSize : Z;         (* uint32 *)
  RawData : list byte
}.

(** Every numeric field holds a value of its Go type. *)
Record wf_WAVEFormat (v : WAVEFormat) : Prop := {
  wf_FormatTag : is_u16 (FormatTag v);
  wf_Channels : is_u16 (Channels v);
  wf_SamplesPerSec : is_u32 (SamplesPerSec v);
  wf_AvgBytesPerSec : is_u32 (AvgBytesPerSec v);
  wf_BlockAlign : is_u16 (BlockAlign v);
  wf_BitsPerSample : is_u16 (BitsPerSample v);
  wf_DataSize : is_u32 (DataSize v)
}.

(** [[]byte("...")] *)
Definition bytes_of (s : string) : list byte := list_byte_of_string s.

Definition Bytes (v : WAVEFormat) : list byte :=
  let buf := [] in
  let buf := Binary.Write buf Binary.BigEndian (Binary.ByteSlice (bytes_of "RIFF")) in
  let buf := Binary.Write buf Binary.LittleEndian (Binary.Uint32 (u32 (DataSize v + 36))) in
  let buf := Binary.Write buf Binary.BigEndian (Binary.ByteSlice (bytes_of "WAVEfmt ")) in
  let buf := Binary.Write buf Binary.LittleEndian (Binary.Uint32 16) in
  let buf := Binary.Write buf Binary.LittleEndian (Binary.Uint16 1) in
  let buf := Binary.Write buf Binary.LittleEndian (Binary.Uint16 (Channels v)) in
  let buf := Binary.Write buf Binary.LittleEndian (Binary.Uint32 (SamplesPerSec v)) in
  let buf := Binary.Write buf Binary.LittleEndian (Binary.Uint32 (AvgBytesPerSec v)) in
  let buf := Binary.Write buf Binary.LittleEndian (Binary.Uint16 (BlockAlign v)) in
  let buf := Binary.Write buf Binary.LittleEndian (Binary.Uint16 (BitsPerSample v)) in
  let buf := Binary.Write buf Binary.BigEndian (Binary.ByteSlice (bytes_of "data")) in
  let buf := Binary.Write buf Binary.LittleEndian (Binary.Uint32 (DataSize v)) in
  let buf := Binary.Write buf Binary.LittleEndian (Binary.ByteSlice (RawData v)) in
  buf.

(** ** Reading a container back

    Nothing in the program reads a container; these definitions follow
    the layout table of the specification and are what the encoder is
    compared with. *)

(** The Go slice expression [bs[lo:hi]]. *)
Definition slice (lo hi : nat) (bs : list byte) : list byte :=
  firstn (hi - lo) (skipn lo bs).

(** The little-endian number held by a byte sequence. *)
Fixpoint le_value (bs : list byte) : Z :=
  match bs with
  | [] => 0
  | b :: bs' => Binary.Z_of_byte b + 256 * le_value bs'
  end.

Record Header := mkHeader {
  h_riffSize : Z;
  h_fmtSize : Z;
  h_formatTag : Z;
  h_channels : Z;
  h_samplesPerSec : Z;
  h_avgBytesPerSec : Z;
  h_blockAlign : Z;
  h_bitsPerSample : Z;
  h_dataSize : Z
}.

Definition bytes_eqb (a b : list byte) : bool :=
  if list_eq_dec Byte.byte_eq_dec a b then true else false.

Definition decode_header (bs : list byte) : option Header :=
  if (Nat.leb 44 (List.length bs)
      && bytes_eqb (slice 0 4 bs) (bytes_of "RIFF")
      && bytes_eqb (slice 8 16 bs) (bytes_of "WAVEfmt ")
      && bytes_eqb (slice 36 40 bs) (bytes_of "data"))%bool
  then Some {| h_riffSize := le_value (slice 4 8 bs);
               h_fmtSize := le_value (slice 16 20 bs);
               h_formatTag := le_value (slice 20 22 bs);
               h_channels := le_value (slice 22 24 bs);
               h_samplesPerSec := le_value (slice 24 28 bs);
               h_avgBytesPerSec := le_value (slice 28 32 bs);
               h_blockAlign := le_value (slice 32 34 bs);
               h_bitsPerSample := le_value (slice 34 36 bs);
               h_dataSize := le_value (slice 40 44 bs) |}
  else None.

(** The payload: everything after the 44 header bytes. *)
Definition payload (bs : list byte) : list byte := skipn 44 bs.

(** The byte with value [x mod 256]. *)
Definition byte_mod (x : Z) : byte :=
  match Byte.of_N (Z.to_N (x mod 256)) with
  | Some b => b
  | None => x00
  end.

(** [x] on [n] bytes, least significant byte first. *)
Fixpoint le_bytes (n : nat) (x : Z) : list byte :=
  match n with
  | O => []
  | S n' => byte_mod x :: le_bytes n' (x / 256)
  end.

(** The 44 bytes of the layout table, for the fields of [v]. *)
Definition canonical_header (v : WAVEFormat) : list byte :=
  bytes_of "RIFF" ++ le_bytes 4 ((DataSize v + 36) mod 2 ^ 32)
  ++ bytes_of "WAVEfmt " ++ le_bytes 4 16 ++ le_bytes 2 1
  ++ le_bytes 2 (Channels v) ++ le_bytes 4 (SamplesPerSec v)
  ++ le_bytes 4 (AvgBytesPerSec v) ++ le_bytes 2 (BlockAlign v)
  ++ le_bytes 2 (BitsPerSample v)
  ++ bytes_of "data" ++ le_bytes 4 (DataSize v).

(** ** [float64] and [time.Duration]

    Go's [float64] is IEEE 754 binary64; its operations are the ones of
    the Standard Library's executable specification [SpecFloat] at
    precision 53 and maximal exponent 1024. *)

Module F64.

Definition prec : Z := 53.
Definition emax : Z := 1024.

Definition float64 := spec_float.

Definition mul : float64 -> float64 -> float64 := SFmul prec emax.
Definition div : float64 -> float64 -> float64 := SFdiv prec emax.

(** The conversion [float64(n)] of an integer: round to nearest even. *)
Definition of_Z (n : Z) : float64 := binary_normalize prec emax n 0 false.

(** The integer part of a finite float, fraction discarded. *)
Definition trunc (f : float64) : Z :=
  match f with
  | S754_finite s m e =>
      let a := match e with
               | Zneg p => Z.shiftr (Zpos m) (Zpos p)
               | _ => Z.shiftl (Zpos m) e
               end in
      if s then - a else a
  | _ => 0
  end.

Definition is_finite (f : float64) : bool :=
  match f with
  | S754_zero _ | S754_finite _ _ _ => true
  | _ => false
  end.

(** The conversion [int64(f)]: truncation towards zero.  For a NaN, an
    infinity or a value outside [int64] the language leaves the result
    to the implementation; the value here is the one amd64 gives. *)
Definition to_int64 (f : float64) : Z :=
  let v := trunc f in
  if (is_finite f && (- 2 ^ 63 <=? v) && (v <? 2 ^ 63))%bool then v
  else - 2 ^ 63.

End F64.

(** The real number a positive finite float stands for, and the
    relative error of one rounding. *)
Definition bpow (e : Z) : R := powerRZ 2 e.
Definition F2R (m : positive) (e : Z) : R := (IZR (Zpos m) * bpow e)%R.
Definition eps : R := (/ 4503599627370496)%R.   (* 2^-52 *)

(** A mantissa of exactly 53 bits. *)
Definition normal (m : positive) : Prop := 2 ^ 52 <= Zpos m < 2 ^ 53.

(** A 64-bit signed integer with its wrap-around. *)
Definition i64 (x : Z) : Z := (x + 2 ^ 63) mod 2 ^ 64 - 2 ^ 63.

(** [time.Duration] counts nanoseconds in an [int64]. *)
Definition Duration := Z.
Definition Second : Duration := 1000000000.

(** ** The flags *)

(** An [error] value, told apart by a code. *)
Inductive error := Err (code : Z).

(** [DurationFlag.Set] after [strconv.ParseFloat]: [parsed] is what the
    parser returned, [inl] for its error.  The flag keeps its value when
    parsing fails. *)
Definition DurationFlag_Set (old : Duration) (parsed : error + F64.float64)
  : Duration * option error :=
  match parsed with
  | inl e => (old, Some e)
  | inr sec => (F64.to_int64 (F64.mul sec (F64.of_Z Second)), None)
  end.

(** ** The negotiated mix format and its override *)

Record WAVEFORMATEX := mkWAVEFORMATEX {
  WFormatTag : Z;       (* uint16 *)
  NChannels : Z;        (* uint16 *)
  NSamplesPerSec : Z;   (* uint32 *)
  NAvgBytesPerSec : Z;  (* uint32 *)
  NBlockAlign : Z;      (* uint16 *)
  WBitsPerSample : Z;   (* uint16 *)
  CbSize : Z            (* uint16 *)
}.

Definition set_WFormatTag x w :=
  mkWAVEFORMATEX x (NChannels w) (NSamplesPerSec w) (NAvgBytesPerSec w)
    (NBlockAlign w) (WBitsPerSample w) (CbSize w).
Definition set_NChannels x w :=
  mkWAVEFORMATEX (WFormatTag w) x (NSamplesPerSec w) (NAvgBytesPerSec w)
    (NBlockAlign w) (WBitsPerSample w) (CbSize w).
Definition set_NSamplesPerSec x w :=
  mkWAVEFORMATEX (WFormatTag w) (NChannels w) x (NAvgBytesPerSec w)
    (NBlockAlign w) (WBitsPerSample w) (CbSize w).
Definition set_NAvgBytesPerSec x w :=
  mkWAVEFORMATEX (WFormatTag w) (NChannels w) (NSamplesPerSec w) x
    (NBlockAlign w) (WBitsPerSample w) (CbSize w).
Definition set_NBlockAlign x w :=
  mkWAVEFORMATEX (WFormatTag w) (NChannels w) (NSamplesPerSec w)
    (NAvgBytesPerSec w) x (WBitsPerSample w) (CbSize w).
Definition set_WBitsPerSample x w :=
  mkWAVEFORMATEX (WFormatTag w) (NChannels w) (NSamplesPerSec w)
    (NAvgBytesPerSec w) (NBlockAlign w) x (CbSize w).
Definition set_CbSize x w :=
  mkWAVEFORMATEX (WFormatTag w) (NChannels w) (NSamplesPerSec w)
    (NAvgBytesPerSec w) (NBlockAlign w) (WBitsPerSample w) x.

(** The seven assignments to [wfx], one after the other: the two derived
    fields read the fields as they are at that point. *)
Definition override (wfx : WAVEFORMATEX) : WAVEFORMATEX :=
  let wfx := set_WFormatTag 1 wfx in
  let wfx := set_NChannels 2 wfx in
  let wfx := set_NSamplesPerSec 44100 wfx in
  let wfx := set_WBitsPerSample 16 wfx in
  let wfx := set_NBlockAlign (u16 (WBitsPerSample wfx / 8 * NChannels wfx)) wfx in
  let wfx := set_NAvgBytesPerSec (u32 (NSamplesPerSec wfx * NBlockAlign wfx)) wfx in
  let wfx := set_CbSize 0 wfx in
  wfx.

Definition set_Channels x v :=
  mkWAVEFormat (FormatTag v) x (SamplesPerSec v) (AvgBytesPerSec v)
    (BlockAlign v) (BitsPerSample v) (DataSize v) (RawData v).
Definition set_SamplesPerSec x v :=
  mkWAVEFormat (FormatTag v) (Channels v) x (AvgBytesPerSec v)
    (BlockAlign v) (BitsPerSample v) (DataSize v) (RawData v).
Definition set_AvgBytesPerSec x v :=
  mkWAVEFormat (FormatTag v) (Channels v) (SamplesPerSec v) x
    (BlockAlign v) (BitsPerSample v) (DataSize v) (RawData v).
Definition set_BlockAlign x v :=
  mkWAVEFormat (FormatTag v) (Channels v) (SamplesPerSec v) (AvgBytesPerSec v)
    x (BitsPerSample v) (DataSize v) (RawData v).
Definition set_BitsPerSample x v :=
  mkWAVEFormat (FormatTag v) (Channels v) (SamplesPerSec v) (AvgBytesPerSec v)
    (BlockAlign v) x (DataSize v) (RawData v).
Definition set_DataSize x v :=
  mkWAVEFormat (FormatTag v) (Channels v) (SamplesPerSec v) (AvgBytesPerSec v)
    (BlockAlign v) (BitsPerSample v) x (RawData v).
Definition set_RawData x v :=
  mkWAVEFormat (FormatTag v) (Channels v) (SamplesPerSec v) (AvgBytesPerSec v)
    (BlockAlign v) (BitsPerSample v) (DataSize v) x.

(** [&WAVEFormat{}]: every field at its zero value. *)
Definition zero_WAVEFormat : WAVEFormat := mkWAVEFormat 0 0 0 0 0 0 0 [].

(** [audio = &WAVEFormat{}] and the five assignments from [wfx]. *)
Definition new_audio (wfx : WAVEFORMATEX) : WAVEFormat :=
  let audio := zero_WAVEFormat in
  let audio := set_Channels (NChannels wfx) audio in
  let audio := set_SamplesPerSec (NSamplesPerSec wfx) audio in
  let audio := set_AvgBytesPerSec (NAvgBytesPerSec wfx) audio in
  let audio := set_BlockAlign (NBlockAlign wfx) audio in
  let audio := set_BitsPerSample (WBitsPerSample wfx) audio in
  audio.

(** ** Duration bookkeeping *)

(** Line 239: the length of what was captured so far, from [DataSize]
    and the format, computed in [float64] and converted to nanoseconds. *)
Definition currentDuration (audio : WAVEFormat) : Duration :=
  F64.to_int64
    (F64.mul
       (F64.div
          (F64.div
             (F64.div (F64.of_Z (DataSize audio))
                      (F64.of_Z (BitsPerSample audio / 8)))
             (F64.of_Z (Channels audio)))
          (F64.of_Z (SamplesPerSec audio)))
       (F64.of_Z Second)).

(** Line 240: [duration != 0 && currentDuration > duration]. *)
Definition shouldStop (duration current : Duration) : bool :=
  negb (duration =? 0) && (current >? duration).

(** ** The audio session, seen from the program

    Everything behind the COM boundary is the environment.  A call made
    once has one answer; a call made inside the loop has one answer per
    iteration, the iterations being numbered from 0.  The deferred
    [Release] calls and [CoTaskMemFree] return nothing the program looks
    at and are left out. *)

(** What [GetBuffer] stores through its five pointers. *)
Record Packet := mkPacket {
  data : Z;                 (* address of the first byte *)
  availableFrameSize : Z;   (* uint32 *)
  flags : Z;
  devicePosition : Z;
  qcpPosition : Z
}.

Record Env := mkEnv {
  CoInitializeEx : option error;
  CoCreateInstance : option error;
  GetDefaultAudioEndpoint : option error;
  OpenPropertyStore : option error;
  GetValue : error + string;                (* what [pv.String()] gives *)
  Activate : option error;
  GetMixFormat : error + WAVEFORMATEX;
  GetDevicePeriod : error + Z * Z;          (* default, minimum: int64 *)
  Initialize : WAVEFORMATEX -> option error;
  GetBufferSize : error + Z;                (* uint32 *)
  GetService : option error;
  Start : option error;
  interrupted : nat -> bool;                (* a signal waits in signalChan *)
  GetBuffer : nat -> error + Packet;
  memory : nat -> Z -> byte;                (* the bytes behind [data] *)
  GetCurrentPadding : nat -> error + Z;     (* uint32 *)
  ReleaseBuffer : nat -> Z -> option error;
  Stop : option error;
  WriteFile : string -> list byte -> option error
}.

(** An argument of [fmt.Printf]. *)
Inductive PrintfArg :=
| ArgInt (z : Z)
| ArgString (s : string).

(** The line feed that ends every format of the program. *)
Definition LF : string := String (Ascii.ascii_of_nat 10) EmptyString.

Definition Millisecond : Duration := 1000000.

(** What the program does to the outside, in order: everything it
    prints, and the calls to the session from [Start] on.  A [Printf] is
    recorded with its format and its arguments; the text [fmt] makes of
    them is not modelled.  The calls that set the session up (lines
    121-203) are not events: their answers are the fields of [Env]. *)
Inductive event :=
| EvPrintln (s : string)
| EvPrintf (format : string) (args : list PrintfArg)
| EvStart
| EvSleep (d : Duration)
| EvGetBuffer
| EvReadRegion (start lim : Z)
| EvGetCurrentPadding
| EvReleaseBuffer (n : Z)
| EvStop
| EvWriteFile (name : string) (contents : list byte).

Definition trace := list event.

(** ** The capture loop *)

Record LoopState := mkLoopState {
  isCapturing : bool;
  audio : WAVEFormat;
  capturingPeriod : Duration;
  events : trace                     (* oldest first *)
}.

Definition emit (ev : event) (s : LoopState) : LoopState :=
  mkLoopState (isCapturing s) (audio s) (capturingPeriod s) (events s ++ [ev]).
Definition set_isCapturing (b : bool) (s : LoopState) : LoopState :=
  mkLoopState b (audio s) (capturingPeriod s) (events s).
Definition set_audio (a : WAVEFormat) (s : LoopState) : LoopState :=
  mkLoopState (isCapturing s) a (capturingPeriod s) (events s).
Definition set_capturingPeriod (d : Duration) (s : LoopState) : LoopState :=
  mkLoopState (isCapturing s) (audio s) d (events s).

(** Lines 254-257: [count] more rounds of the copy loop, [n] being the
    loop variable; each round appends the byte at [start + n]. *)
Fixpoint copy_loop (mem : Z -> byte) (start n : Z) (count : nat)
    (raw : list byte) : list byte :=
  match count with
  | O => raw
  | S count' => copy_loop mem start (n + 1) count' (raw ++ [mem (u64 (start + n))])
  end.

(** Line 263. *)
Definition nextPeriod (bufferFrameSize padding samplesPerSec : Z) : Duration :=
  F64.to_int64
    (F64.mul
       (F64.div (F64.of_Z (u32 (bufferFrameSize - padding)))
                (F64.of_Z samplesPerSec))
       (F64.of_Z Second)).

(** How one round of the [for] loop ends. *)
Inductive Step :=
| Again (s : LoopState)              (* the loop goes round again *)
| Leave (s : LoopState)              (* [break] out of the [for] *)
| Abort (e : error) (s : LoopState). (* [return] with [err] set *)

(** Lines 230-268, round number [k].  A [break] inside [select] leaves
    the [select] only, so the loop is left at the top of the next round. *)
Definition iteration (env : Env) (wfx : WAVEFORMATEX)
    (bufferFrameSize : Z) (duration : Duration) (k : nat) (s : LoopState) : Step :=
  if negb (isCapturing s) then Leave s
  else if interrupted env k then
    Again (set_isCapturing false (emit (EvPrintln "Interrupted by SIGINT") s))
  else if shouldStop duration (currentDuration (audio s)) then
    Again (set_isCapturing false s)
  else
    let s := emit EvGetBuffer s in
    match GetBuffer env k with
    | inl e => Abort e s
    | inr p =>
        if availableFrameSize p =? 0 then Again s
        else
          let start := data p in
          let lim := availableFrameSize p * NBlockAlign wfx in
          let s := emit (EvReadRegion start lim) s in
          let raw := copy_loop (memory env k) start 0 (Z.to_nat lim) (RawData (audio s)) in
          let s := set_audio (set_RawData raw (audio s)) s in
          let s := set_audio (set_DataSize (u32 (DataSize (audio s) + u32 lim)) (audio s)) s in
          let s := emit EvGetCurrentPadding s in
          match GetCurrentPadding env k with
          | inl e => Abort e s
          | inr padding =>
              let s := set_capturingPeriod
                         (nextPeriod bufferFrameSize padding (NSamplesPerSec wfx)) s in
              let s := emit (EvSleep (Z.quot (capturingPeriod s) 2)) s in
              let s := emit (EvReleaseBuffer (availableFrameSize p)) s in
              match ReleaseBuffer env k (availableFrameSize p) with
              | Some e => Abort e s
              | None => Again s
              end
          end
    end.

(** Where the loop stands after at most [fuel] rounds, starting with
    round [k]. *)
Inductive LoopResult :=
| Looping (s : LoopState)            (* [fuel] rounds done, still inside *)
| Left (s : LoopState)
| Aborted (e : error) (s : LoopState).

Fixpoint loop (env : Env) (wfx : WAVEFORMATEX) (bufferFrameSize : Z)
    (duration : Duration) (fuel k : nat) (s : LoopState) : LoopResult :=
  match fuel with
  | O => Looping s
  | S fuel' =>
      match iteration env wfx bufferFrameSize duration k s with
      | Again s' => loop env wfx bufferFrameSize duration fuel' (S k) s'
      | Leave s' => Left s'
      | Abort e s' => Aborted e s'
      end
  end.

(** ** [loopbackCaptureSharedTimerDriven] and [run] *)

(** A call that has returned, with its two results and what it did; or
    one that is still in its loop. *)
Inductive Outcome :=
| Returned (audio : option WAVEFormat) (err : option error) (t : trace)
| Running (t : trace).

Definition println_if (b : bool) (s : string) : trace :=
  if b then [EvPrintln s] else [].

(** Lines 121-214: everything before the loop.  Either the function
    returns early with an error ([audio] is still nil before line 169),
    or the loop starts with the overridden format, the buffer size and
    its first state.  The trace [t] grows as the lines print. *)
Inductive SetupResult :=
| SetupFailed (audio : option WAVEFormat) (e : error) (t : trace)
| Ready (wfx : WAVEFORMATEX) (bufferFrameSize : Z) (s : LoopState).

Definition setup (env : Env) (duration : Duration) : SetupResult :=
  match CoInitializeEx env with Some e => SetupFailed None e [] | None =>
  match CoCreateInstance env with Some e => SetupFailed None e [] | None =>
  match GetDefaultAudioEndpoint env with Some e => SetupFailed None e [] | None =>
  match OpenPropertyStore env with Some e => SetupFailed None e [] | None =>
  match GetValue env with inl e => SetupFailed None e [] | inr name =>
  let t := [EvPrintf ("Capturing what you hear from: %s" ++ LF) [ArgString name]] in
  match Activate env with Some e => SetupFailed None e t | None =>
  match GetMixFormat env with inl e => SetupFailed None e t | inr wfx =>
  let wfx := override wfx in
  let a := new_audio wfx in
  let t := t ++ [EvPrintln "--------";
                 EvPrintf ("Format: PCM %d bit signed integer" ++ LF)
                          [ArgInt (WBitsPerSample wfx)];
                 EvPrintf ("Rate: %d Hz" ++ LF) [ArgInt (NSamplesPerSec wfx)];
                 EvPrintf ("Channels: %d" ++ LF) [ArgInt (NChannels wfx)];
                 EvPrintln "--------"] in
  match GetDevicePeriod env with
  | inl e => SetupFailed (Some a) e t
  | inr (defaultPeriod, _) =>
  let capturingPeriod := i64 (defaultPeriod * 100) in
  let t := t ++ [EvPrintf ("Default capturing period: %d ms" ++ LF)
                          [ArgInt (Z.quot capturingPeriod Millisecond)]] in
  match Initialize env wfx with Some e => SetupFailed (Some a) e t | None =>
  match GetBufferSize env with
  | inl e => SetupFailed (Some a) e t
  | inr bufferFrameSize =>
  let t := t ++ [EvPrintf ("Allocated buffer size: %d" ++ LF) [ArgInt bufferFrameSize]] in
  match GetService env with Some e => SetupFailed (Some a) e t | None =>
  match Start env with Some e => SetupFailed (Some a) e (t ++ [EvStart]) | None =>
  let t := t ++ [EvStart;
                 EvPrintln "Start capturing loopback audio with shared-timer-driven mode"]
             ++ println_if (duration <=? 0) "Press Ctrl-C to stop capturing"
             ++ [EvSleep capturingPeriod] in
  Ready wfx bufferFrameSize (mkLoopState true a capturingPeriod t)
  end end end end end end end end end end end end.

Definition loopbackCaptureSharedTimerDriven (env : Env) (fuel : nat)
    (duration : Duration) : Outcome :=
  match setup env duration with
  | SetupFailed a e t => Returned a (Some e) t
  | Ready wfx bufferFrameSize s0 =>
      match loop env wfx bufferFrameSize duration fuel 0 s0 with
      | Looping s => Running (events s)
      | Aborted e s => Returned (Some (audio s)) (Some e) (events s)
      | Left s =>
          let t := events s ++ [EvPrintln "Stop capturing"; EvStop] in
          Returned (Some (audio s)) (Stop env) t
      end
  end.

(** [run] after the flags are parsed: [filename] and [duration] are the
    values the two flags hold.  The capture never returns a nil [audio]
    without an error; that branch is there for totality. *)
Definition run (env : Env) (fuel : nat) (filename : string)
    (duration : Duration) : Outcome :=
  if String.eqb filename "" then Returned None None []
  else
    match loopbackCaptureSharedTimerDriven env fuel duration with
    | Running t => Running t
    | Returned audio (Some e) t => Returned audio (Some e) t
    | Returned None None t => Returned None None t
    | Returned (Some audio) None t =>
        let t := t ++ [EvWriteFile filename (Bytes audio)] in
        match WriteFile env filename (Bytes audio) with
        | Some e => Returned (Some audio) (Some e) t
        | None => Returned (Some audio) None (t ++ [EvPrintln "Successfully done"])
        end
    end.

(** The files a trace writes. *)
Fixpoint files_written (t : trace) : list (string * list byte) :=
  match t with
  | [] => []
  | EvWriteFile name contents :: t' => (name, contents) :: files_written t'
  | _ :: t' => files_written t'
  end.

(** ** Vocabulary for the statements below *)

(** The [count] bytes of the region that starts at address [start]. *)
Definition region (mem : Z -> byte) (start : Z) (count : nat) : list byte :=
  map (fun i => mem (u64 (start + Z.of_nat i))) (seq 0 count).

(** [GetBuffer] stores a [uint32] frame count. *)
Definition wf_env (env : Env) : Prop :=
  forall k p, GetBuffer env k = inr p -> is_u32 (availableFrameSize p).

(** [s'] comes after [s] in one capture: same format, more data, more
    events, no file written in between. *)
Record extends (s s' : LoopState) : Prop := {
  ext_FormatTag : FormatTag (audio s') = FormatTag (audio s);
  ext_Channels : Channels (audio s') = Channels (audio s);
  ext_SamplesPerSec : SamplesPerSec (audio s') = SamplesPerSec (audio s);
  ext_AvgBytesPerSec : AvgBytesPerSec (audio s') = AvgBytesPerSec (audio s);
  ext_BlockAlign : BlockAlign (audio s') = BlockAlign (audio s);
  ext_BitsPerSample : BitsPerSample (audio s') = BitsPerSample (audio s);
  ext_data : exists l,
      RawData (audio s') = RawData (audio s) ++ l
      /\ DataSize (audio s') = u32 (DataSize (audio s) + Z.of_nat (List.length l));
  ext_events : exists evs,
      events s' = events s ++ evs /\ files_written evs = []
}.

Definition step_state (r : Step) : LoopState :=
  match r with Again s | Leave s | Abort _ s => s end.

Definition result_state (r : LoopResult) : LoopState :=
  match r with Looping s | Left s | Aborted _ s => s end.

Definition outcome_trace (r : Outcome) : trace :=
  match r with Returned _ _ t | Running t => t end.

(** The state a round leaves behind when it takes a packet [p] of
    [lim] bytes and reads [padding]. *)
Definition accumulated (env : Env) (k : nat) (p : Packet) (lim : Z)
    (bufferFrameSize padding samplesPerSec : Z) (s : LoopState) : LoopState :=
  let period := nextPeriod bufferFrameSize padding samplesPerSec in
  mkLoopState (isCapturing s)
    (set_DataSize (u32 (DataSize (audio s) + lim))
       (set_RawData (RawData (audio s) ++ region (memory env k) (data p) (Z.to_nat lim))
          (audio s)))
    period
    (events s ++ [EvGetBuffer; EvReadRegion (data p) lim; EvGetCurrentPadding;
                  EvSleep (Z.quot period 2); EvReleaseBuffer (availableFrameSize p)]).

(** The fixed target profile. *)
Definition target_profile (a : WAVEFormat) : Prop :=
  BitsPerSample a = 16 /\ Channels a = 2 /\ SamplesPerSec a = 44100.

(** The fields that describe the format, [DataSize] and [RawData] apart. *)
Definition same_format (a a' : WAVEFormat) : Prop :=
  FormatTag a' = FormatTag a /\ Channels a' = Channels a
  /\ SamplesPerSec a' = SamplesPerSec a /\ AvgBytesPerSec a' = AvgBytesPerSec a
  /\ BlockAlign a' = BlockAlign a /\ BitsPerSample a' = BitsPerSample a.

(** One of the three calls of a round fails with [e]. *)
Definition round_fails (env : Env) (k : nat) (e : error) : Prop :=
  GetBuffer env k = inl e
  \/ exists p, GetBuffer env k = inr p /\ availableFrameSize p <> 0
       /\ (GetCurrentPadding env k = inl e
           \/ exists padding, GetCurrentPadding env k = inr padding
                /\ ReleaseBuffer env k (availableFrameSize p) = Some e).

(** ** Sample sessions *)

(** A shared-mode mix format as an endpoint reports it: 32-bit float,
    48 kHz, stereo, extensible tag. *)
Definition mix_format : WAVEFORMATEX := mkWAVEFORMATEX 65534 2 48000 384000 8 32 22.

(** A session that hands out [frames] frames in every round, with an
    interrupt waiting in the rounds [sigint] says and [GetBuffer] failing
    in the rounds [broken] says; nothing else fails. *)
Definition session (frames : Z) (sigint broken : nat -> bool) : Env :=
  {| CoInitializeEx := None;
     CoCreateInstance := None;
     GetDefaultAudioEndpoint := None;
     OpenPropertyStore := None;
     GetValue := inr "Speakers"%string;
     Activate := None;
     GetMixFormat := inr mix_format;
     GetDevicePeriod := inr (100000, 30000);
     Initialize := fun _ => None;
     GetBufferSize := inr 8820;
     GetService := None;
     Start := None;
     interrupted := sigint;
     GetBuffer := fun k => if broken k then inl (Err 2290679812)
                           else inr (mkPacket 4096 frames 0 0 0);
     memory := fun k addr => Binary.byte_of_Z (addr + Z.of_nat k);
     GetCurrentPadding := fun _ => inr 0;
     ReleaseBuffer := fun _ _ => None;
     Stop := None;
     WriteFile := fun _ _ => None |}.

(** No interrupt, no failure. *)
Definition steady_env (frames : Z) : Env :=
  session frames (fun _ => false) (fun _ => false).


(** What such a session prints before the stream starts. *)
Definition steady_banner : trace :=
  [EvPrintf ("Capturing what you hear from: %s" ++ LF) [ArgString "Speakers"];
   EvPrintln "--------";
   EvPrintf ("Format: PCM %d bit signed integer" ++ LF) [ArgInt 16];
   EvPrintf ("Rate: %d Hz" ++ LF) [ArgInt 44100];
   EvPrintf ("Channels: %d" ++ LF) [ArgInt 2];
   EvPrintln "--------";
   EvPrintf ("Default capturing period: %d ms" ++ LF) [ArgInt 10];
   EvPrintf ("Allocated buffer size: %d" ++ LF) [ArgInt 8820]].

(** The first state of the loop in such a session. *)
Definition steady_start : LoopState :=
  mkLoopState true (new_audio (override mix_format)) 10000000
    (steady_banner ++
     [EvStart;
      EvPrintln "Start capturing loopback audio with shared-timer-driven mode";
      EvPrintln "Press Ctrl-C to stop capturing";
      EvSleep 10000000]).

(** ** [FilenameFlag] *)

(** [strings.HasSuffix]:
    [len(s) >= len(suffix) && s[len(s)-len(suffix):] == suffix]. *)
Definition HasSuffix (s suffix : string) : bool :=
  (String.length suffix <=? String.length s)%nat
  && String.eqb
       (substring (String.length s - String.length suffix) (String.length suffix) s)
       suffix.

(** The error made by [fmt.Errorf("specify WAVE audio file (*.wav)")]. *)
Definition ErrNotWave : error := Err 1.

(** [FilenameFlag.Set]: [old] is the value the flag holds before the call. *)
Definition FilenameFlag_Set (old value : string) : string * option error :=
  if negb (HasSuffix value ".wav") then (old, Some ErrNotWave)
  else (value, None).

(** ** Reading a trace *)

(** The bytes read from buffer regions, the frames handed back, and the
    number of polls. *)
Fixpoint bytes_read (t : trace) : Z :=
  match t with
  | [] => 0
  | EvReadRegion _ lim :: t' => lim + bytes_read t'
  | _ :: t' => bytes_read t'
  end.

Fixpoint frames_released (t : trace) : Z :=
  match t with
  | [] => 0
  | EvReleaseBuffer n :: t' => n + frames_released t'
  | _ :: t' => frames_released t'
  end.

Fixpoint polls (t : trace) : nat :=
  match t with
  | [] => O
  | EvGetBuffer :: t' => S (polls t')
  | _ :: t' => polls t'
  end.

Fixpoint releases (t : trace) : nat :=
  match t with
  | [] => O
  | EvReleaseBuffer _ :: t' => S (releases t')
  | _ :: t' => releases t'
  end.

(** The events a round of the loop can record. *)
Definition loop_event (ev : event) : Prop :=
  match ev with
  | EvPrintln s => s = "Interrupted by SIGINT"%string
  | EvGetBuffer | EvReadRegion _ _ | EvGetCurrentPadding
  | EvSleep _ | EvReleaseBuffer _ => True
  | EvPrintf _ _ | EvStart | EvStop | EvWriteFile _ _ => False
  end.

(** A session in which, from round [k] on, no interrupt arrives, no
    call fails and every packet holds between 1 and [maxFrames] frames. *)
Definition flowing (env : Env) (maxFrames : Z) (k : nat) : Prop :=
  forall j, (k <= j)%nat ->
    interrupted env j = false
    /\ (exists p, GetBuffer env j = inr p /\ 1 <= availableFrameSize p <= maxFrames)
    /\ (exists padding, GetCurrentPadding env j = inr padding)
    /\ (forall n, ReleaseBuffer env j n = None).

(** A session in which, from round [k] on, no interrupt arrives and
    every poll succeeds with no frame. *)
Definition starved (env : Env) (k : nat) : Prop :=
  forall j, (k <= j)%nat ->
    interrupted env j = false
    /\ exists p, GetBuffer env j = inr p /\ availableFrameSize p = 0.

(** What the events of some rounds say about the data: [evs] are the
    events, [d] the growth of [RawData], [balanced] whether every frame
    read was handed back. *)
Record accounts (blockAlign : Z) (evs : trace) (d : Z) (balanced : bool) : Prop := {
  acc_events : Forall loop_event evs;
  acc_bytes : d = bytes_read evs;
  acc_frames : (blockAlign | bytes_read evs);
  acc_polls : (releases evs <= polls evs)%nat;
  acc_balanced : balanced = true -> bytes_read evs = blockAlign * frames_released evs
}.

Definition step_balanced (r : Step) : bool :=
  match r with Abort _ _ => false | _ => true end.

Definition result_balanced (r : LoopResult) : bool :=
  match r with Aborted _ _ => false | _ => true end.

(** What the program writes to standard output. *)
Definition is_output (ev : event) : Prop :=
  match ev with
  | EvPrintln _ | EvPrintf _ _ => True
  | _ => False
  end.

(** An event the capture itself can record: what [setup] and the loop
    record, and the two events after the loop. *)
Definition capture_event (ev : event) : Prop :=
  match ev with
  | EvPrintln s => s <> "Successfully done"%string
  | EvWriteFile _ _ => False
  | _ => True
  end.

(** * Proofs *)

(** ** The encoder against the layout table *)

Lemma byte_of_Z_mod v : Binary.byte_of_Z v = byte_mod v.
Proof.
  unfold Binary.byte_of_Z, byte_mod.
  change 255 with (Z.ones 8). rewrite Z.land_ones by lia. reflexivity.
Qed.

Lemma Z_of_byte_mod x : Binary.Z_of_byte (byte_mod x) = x mod 256.
Proof.
  unfold Binary.Z_of_byte, byte_mod.
  assert (H : 0 <= x mod 256 < 256) by (apply Z.mod_pos_bound; lia).
  destruct (Byte.of_N (Z.to_N (x mod 256))) as [b|] eqn:E.
  - apply Byte.to_of_N in E. rewrite E. lia.
  - apply Byte.of_N_None_iff in E. lia.
Qed.

Lemma shiftr_div x k : 0 <= k -> Z.shiftr x k = x / 2 ^ k.
Proof. intros. apply Z.shiftr_div_pow2; assumption. Qed.

Lemma PutUint32_le v : Binary.PutUint32 Binary.LittleEndian v = le_bytes 4 v.
Proof.
  unfold Binary.PutUint32. cbn [le_bytes].
  rewrite !byte_of_Z_mod, !shiftr_div by lia.
  rewrite !Z.div_div by lia. reflexivity.
Qed.

Lemma PutUint16_le v : Binary.PutUint16 Binary.LittleEndian v = le_bytes 2 v.
Proof.
  unfold Binary.PutUint16. cbn [le_bytes].
  rewrite !byte_of_Z_mod, !shiftr_div by lia. reflexivity.
Qed.

Lemma le_bytes_length n x : List.length (le_bytes n x) = n.
Proof. revert x; induction n; intros; cbn [le_bytes List.length]; auto. Qed.

Lemma le_value_le_bytes n x :
  0 <= x < 256 ^ Z.of_nat n -> le_value (le_bytes n x) = x.
Proof.
  revert x; induction n; intros x H.
  - cbn in *. lia.
  - cbn [le_bytes le_value]. rewrite Z_of_byte_mod.
    rewrite IHn.
    + pose proof (Z.div_mod x 256). lia.
    + rewrite Nat2Z.inj_succ, Z.pow_succ_r in H by lia.
      split; [apply Z.div_pos; lia | apply Z.div_lt_upper_bound; lia].
Qed.

Lemma Bytes_eq v : Bytes v = canonical_header v ++ RawData v.
Proof.
  unfold Bytes, Binary.Write, canonical_header, u32.
  rewrite !PutUint32_le, !PutUint16_le.
  cbn [app]. rewrite <- !app_assoc. reflexivity.
Qed.

Lemma canonical_header_length v : List.length (canonical_header v) = 44%nat.
Proof.
  unfold canonical_header. rewrite !length_app, !le_bytes_length. reflexivity.
Qed.

Ltac eval_tag s :=
  let t := eval vm_compute in (bytes_of s) in change (bytes_of s) with t.

Ltac expose_header :=
  unfold canonical_header;
  eval_tag "RIFF"%string; eval_tag "WAVEfmt "%string; eval_tag "data"%string;
  cbn [le_bytes app].

Lemma decode_header_Bytes v :
  decode_header (Bytes v) =
  Some {| h_riffSize := le_value (le_bytes 4 ((DataSize v + 36) mod 2 ^ 32));
          h_fmtSize := le_value (le_bytes 4 16);
          h_formatTag := le_value (le_bytes 2 1);
          h_channels := le_value (le_bytes 2 (Channels v));
          h_samplesPerSec := le_value (le_bytes 4 (SamplesPerSec v));
          h_avgBytesPerSec := le_value (le_bytes 4 (AvgBytesPerSec v));
          h_blockAlign := le_value (le_bytes 2 (BlockAlign v));
          h_bitsPerSample := le_value (le_bytes 2 (BitsPerSample v));
          h_dataSize := le_value (le_bytes 4 (DataSize v)) |}.
Proof.
  rewrite Bytes_eq. expose_header.
  unfold decode_header.
  cbn [List.length Nat.leb slice Nat.sub skipn firstn].
  reflexivity.
Qed.

(** ** Rounding in [float64] *)

(** [digits2_pos] counts binary digits. *)
Lemma digits2_pos_size p : digits2_pos p = Pos.size p.
Proof. induction p; cbn; congruence. Qed.

Lemma digits2_pos_bounds p :
  2 ^ (Zpos (digits2_pos p) - 1) <= Zpos p < 2 ^ Zpos (digits2_pos p).
Proof.
  rewrite digits2_pos_size.
  pose proof (Pos.size_gt p) as Hgt. pose proof (Pos.size_le p) as Hle.
  split.
  - assert (H : 2 ^ Zpos (Pos.size p) <= 2 * Zpos p).
    { rewrite <- Pos2Z.inj_pow. change (2 * Zpos p) with (Zpos (p~0)). apply Pos2Z.pos_le_pos. exact Hle. }
    replace (Zpos (Pos.size p)) with (Z.succ (Zpos (Pos.size p) - 1)) in H by lia.
    rewrite Z.pow_succ_r in H by lia. lia.
  - rewrite <- Pos2Z.inj_pow. apply Pos2Z.pos_lt_pos. exact Hgt.
Qed.

Lemma digits_unique p k :
  2 ^ (k - 1) <= Zpos p < 2 ^ k -> Zpos (digits2_pos p) = k.
Proof.
  intros [Hlo Hhi]. pose proof (digits2_pos_bounds p) as [Dlo Dhi].
  set (d := Zpos (digits2_pos p)) in *.
  assert (0 < k). { destruct (Z_lt_le_dec 0 k); auto. rewrite Z.pow_neg_r in Hlo by lia. destruct (Z.eq_dec k 0); [subst; cbn in *; lia|]. rewrite Z.pow_neg_r in Hhi by lia. lia. }
  assert (0 < d) by (unfold d; lia).
  destruct (Z.lt_trichotomy d k) as [L|[E|G]]; auto.
  - assert (2 ^ d <= 2 ^ (k - 1)) by (apply Z.pow_le_mono_r; lia). lia.
  - assert (2 ^ k <= 2 ^ (d - 1)) by (apply Z.pow_le_mono_r; lia). lia.
Qed.

(** Shifting a record right divides its mantissa by two, whatever the
    round and sticky bits. *)
Lemma shr_1_m mrs : 0 <= shr_m mrs -> shr_m (shr_1 mrs) = shr_m mrs / 2.
Proof.
  destruct mrs as [m r s]. cbn [shr_m]. intros H.
  destruct m as [|p|p]; [reflexivity| |lia].
  destruct p; cbn [shr_1 shr_m].
  - rewrite Pos2Z.inj_xI. apply Z.div_unique with 1; lia.
  - rewrite Pos2Z.inj_xO. apply Z.div_unique with 0; lia.
  - reflexivity.
Qed.

Lemma pow2_xO p : 2 ^ Zpos p~0 = 2 ^ Zpos p * 2 ^ Zpos p.
Proof. rewrite Pos2Z.inj_xO, <- Z.pow_add_r by lia. f_equal. lia. Qed.

Lemma pow2_xI p : 2 ^ Zpos p~1 = 2 * (2 ^ Zpos p * 2 ^ Zpos p).
Proof.
  rewrite Pos2Z.inj_xI, <- Z.pow_add_r by lia.
  replace (2 * Zpos p + 1) with (Z.succ (Zpos p + Zpos p)) by lia.
  rewrite Z.pow_succ_r by lia. reflexivity.
Qed.

Lemma iter_shr_1_m p : forall mrs, 0 <= shr_m mrs ->
  shr_m (SpecFloat.iter_pos shr_1 p mrs) = shr_m mrs / 2 ^ Zpos p.
Proof.
  induction p; intros mrs H; cbn [SpecFloat.iter_pos].
  - assert (H1 : 0 <= shr_m (shr_1 mrs)) by (rewrite shr_1_m by auto; apply Z.div_pos; lia).
    assert (H2 : 0 <= shr_m (SpecFloat.iter_pos shr_1 p (shr_1 mrs))) by (rewrite IHp by auto; apply Z.div_pos; lia).
    rewrite IHp, IHp, shr_1_m by auto.
    rewrite !Z.div_div by lia. rewrite pow2_xI. reflexivity.
  - assert (H2 : 0 <= shr_m (SpecFloat.iter_pos shr_1 p mrs)) by (rewrite IHp by auto; apply Z.div_pos; lia).
    rewrite IHp, IHp by auto.
    rewrite !Z.div_div by lia. rewrite pow2_xO. reflexivity.
  - rewrite shr_1_m by auto. reflexivity.
Qed.

Lemma shr_record_of_loc_m m l : shr_m (shr_record_of_loc m l) = m.
Proof. destruct l as [|[]]; reflexivity. Qed.

Lemma loc_of_shr_record_of_loc m l : loc_of_shr_record (shr_record_of_loc m l) = l.
Proof. destruct l as [|[]]; reflexivity. Qed.

Lemma round_nearest_even_cases m l :
  round_nearest_even m l = m \/ round_nearest_even m l = m + 1.
Proof. destruct l as [|[]]; cbn; auto. destruct (Z.even m); auto. Qed.

Lemma Zdigits2_pos_bounds m k :
  0 < m -> Zdigits2 m = k -> 2 ^ (k - 1) <= m < 2 ^ k.
Proof.
  intros Hm Hk. destruct m as [|p|p]; try lia.
  cbn in Hk. subst k. apply digits2_pos_bounds.
Qed.

Lemma Zdigits2_unique m k :
  2 ^ (k - 1) <= m < 2 ^ k -> 0 < m -> Zdigits2 m = k.
Proof.
  intros H Hm. destruct m as [|p|p]; try lia.
  cbn. apply digits_unique. exact H.
Qed.

(** In the normal range [shr_fexp] cuts a [k]-digit mantissa down to 53
    digits. *)
Lemma shr_fexp_normal m e l k :
  0 < m -> Zdigits2 m = k -> 53 <= k -> -1074 <= e + k - 53 ->
  exists mrs,
    shr_fexp 53 1024 m e l = (mrs, e + k - 53)
    /\ shr_m mrs = m / 2 ^ (k - 53)
    /\ (k = 53 -> mrs = shr_record_of_loc m l).
Proof.
  intros Hm Hk H53 Hmin.
  unfold shr_fexp. rewrite Hk.
  replace (fexp 53 1024 (k + e) - e) with (k - 53)
    by (unfold fexp, emin; lia).
  destruct (k - 53) as [|p|p] eqn:E; try lia.
  - exists (shr_record_of_loc m l). cbn [shr].
    rewrite shr_record_of_loc_m, Z.pow_0_r, Z.div_1_r.
    repeat split. f_equal. lia.
  - exists (SpecFloat.iter_pos shr_1 p (shr_record_of_loc m l)). cbn [shr].
    rewrite iter_shr_1_m by (rewrite shr_record_of_loc_m; lia).
    rewrite shr_record_of_loc_m. repeat split.
    + f_equal. lia.
    + intros ->. lia.
Qed.

Lemma div_pow2_normal m k :
  53 <= k -> 2 ^ (k - 1) <= m < 2 ^ k ->
  2 ^ 52 <= m / 2 ^ (k - 53) < 2 ^ 53.
Proof.
  intros Hk [Hlo Hhi].
  assert (P : 0 < 2 ^ (k - 53)) by (apply Z.pow_pos_nonneg; lia).
  assert (E1 : 2 ^ (k - 1) = 2 ^ 52 * 2 ^ (k - 53))
    by (rewrite <- Z.pow_add_r by lia; f_equal; lia).
  assert (E2 : 2 ^ k = 2 ^ 53 * 2 ^ (k - 53))
    by (rewrite <- Z.pow_add_r by lia; f_equal; lia).
  split.
  - apply Z.div_le_lower_bound; lia.
  - apply Z.div_lt_upper_bound; lia.
Qed.

(** Rounding a positive [k]-digit mantissa, [k >= 53], away from
    underflow and overflow: the result is a 53-digit float whose value is
    the truncation of [m] to 53 digits or its successor, and [m] itself
    when nothing had to be cut. *)
Lemma binary_round_aux_normal m e l k :
  0 < m -> Zdigits2 m = k -> 53 <= k ->
  -1074 <= e + k - 53 -> e + k - 53 < 971 ->
  exists m' e' c,
    binary_round_aux 53 1024 false m e l = S754_finite false m' e'
    /\ 2 ^ 52 <= Zpos m' < 2 ^ 53
    /\ e + k - 53 <= e' <= e + k - 52
    /\ Zpos m' * 2 ^ (e' - (e + k - 53)) = c
    /\ m / 2 ^ (k - 53) <= c <= m / 2 ^ (k - 53) + 1
    /\ (k = 53 -> l = loc_Exact -> c = m).
Proof.
  intros Hm Hk H53 Hmin Hmax.
  destruct (shr_fexp_normal m e l k Hm Hk H53 Hmin) as (mrs & E1 & Em & Ex).
  pose proof (div_pow2_normal m k H53 (Zdigits2_pos_bounds m k Hm Hk)) as Ht.
  unfold binary_round_aux. rewrite E1. rewrite Em.
  set (t := m / 2 ^ (k - 53)) in *.
  set (c := round_nearest_even t (loc_of_shr_record mrs)).
  assert (Hc : c = t \/ c = t + 1) by apply round_nearest_even_cases.
  assert (Hexact : k = 53 -> l = loc_Exact -> c = m).
  { intros K L. unfold c. rewrite (Ex K), loc_of_shr_record_of_loc, L. cbn.
    unfold t. rewrite K. cbn. apply Z.div_1_r. }
  destruct (Z_lt_le_dec c (2 ^ 53)) as [Lt|Ge].
  - assert (Dc : Zdigits2 c = 53) by (apply Zdigits2_unique; cbn in *; lia).
    destruct (shr_fexp_normal c (e + k - 53) loc_Exact 53) as (mrs2 & E2 & Em2 & Ex2); try lia.
    replace (e + k - 53 + 53 - 53) with (e + k - 53) in E2 by lia.
    rewrite E2, Em2. cbn [Z.sub Z.pow Z.pos_sub Z.opp]. rewrite Z.pow_0_r, Z.div_1_r.
    destruct c as [|pc|pc] eqn:Ec; try (cbn in *; lia).
    replace (e + k - 53 <=? 1024 - 53) with true by (symmetry; apply Z.leb_le; lia).
    exists pc, (e + k - 53), (Zpos pc).
    rewrite Z.sub_diag, Z.pow_0_r, Z.mul_1_r.
    repeat split; try lia. exact Hexact.
  - assert (Ec : c = 2 ^ 53) by lia.
    assert (Dc : Zdigits2 c = 54) by (rewrite Ec; reflexivity).
    assert (Pc : 0 < c) by (rewrite Ec; reflexivity).
    destruct (shr_fexp_normal c (e + k - 53) loc_Exact 54 Pc Dc) as (mrs2 & E2 & Em2 & Ex2); try lia.
    replace (e + k - 53 + 54 - 53) with (e + k - 52) in E2 by lia.
    rewrite E2, Em2, Ec. change (2 ^ 53 / 2 ^ (54 - 53)) with (Zpos (2 ^ 52)).
    cbv iota beta.
    replace (e + k - 52 <=? 1024 - 53) with true by (symmetry; apply Z.leb_le; lia).
    exists (2 ^ 52)%positive, (e + k - 52), (2 ^ 53).
    replace (e + k - 52 - (e + k - 53)) with 1 by lia.
    repeat split; try (cbn; lia); try lia.
    intros K L. rewrite <- Ec. apply Hexact; assumption.
Qed.

Lemma bpow_pos e : (0 < bpow e)%R.
Proof. apply powerRZ_lt. lra. Qed.

Lemma bpow_add a b : (bpow (a + b) = bpow a * bpow b)%R.
Proof. apply powerRZ_add. lra. Qed.

Lemma bpow_IZR n : 0 <= n -> bpow n = IZR (2 ^ n).
Proof.
  intros H. unfold bpow. destruct n as [|p|p]; try lia.
  - reflexivity.
  - change (2 ^ Zpos p) with (Z.pow_pos 2 p). rewrite Zpower_pos_powerRZ. reflexivity.
Qed.

Lemma bpow_0 : bpow 0 = 1%R.
Proof. reflexivity. Qed.

Lemma bpow_opp_mul n : (bpow (- n) * bpow n = 1)%R.
Proof. rewrite <- bpow_add. replace (- n + n) with 0 by lia. reflexivity. Qed.

(** The rounded result against the real it rounds. *)
Lemma binary_round_aux_R m e l k (x : R) :
  0 < m -> Zdigits2 m = k -> 53 <= k ->
  -1074 <= e + k - 53 -> e + k - 53 < 971 ->
  (IZR m * bpow e <= x < IZR (m + 1) * bpow e)%R ->
  exists m' e',
    binary_round_aux 53 1024 false m e l = S754_finite false m' e'
    /\ 2 ^ 52 <= Zpos m' < 2 ^ 53
    /\ e + k - 53 <= e' <= e + k - 52
    /\ (x * (1 - eps) <= F2R m' e' <= x * (1 + eps))%R
    /\ (k = 53 -> l = loc_Exact -> (F2R m' e' = IZR m * bpow e)%R).
Proof.
  intros Hm Hk H53 Hmin Hmax Hx.
  destruct (binary_round_aux_normal m e l k Hm Hk H53 Hmin Hmax)
    as (m' & e' & c & E & Hn & He & Hc & Ht & Hex).
  pose proof (div_pow2_normal m k H53 (Zdigits2_pos_bounds m k Hm Hk)) as Hn52.
  set (P := 2 ^ (k - 53)) in *.
  set (t := m / P) in *.
  assert (HP : 0 < P) by (apply Z.pow_pos_nonneg; lia).
  assert (Hdiv : t * P <= m < (t + 1) * P).
  { pose proof (Z.div_mod m P ltac:(lia)) as D.
    pose proof (Z.mod_pos_bound m P HP) as M. fold t in D. nia. }
  set (B := bpow (e + k - 53)).
  assert (HB : (0 < B)%R) by apply bpow_pos.
  assert (EB : (B = bpow e * IZR P)%R).
  { unfold B, P. replace (e + k - 53) with (e + (k - 53)) by lia.
    rewrite bpow_add, (bpow_IZR (k - 53)) by lia. reflexivity. }
  assert (EF : (F2R m' e' = IZR c * B)%R).
  { unfold F2R, B. replace e' with ((e' - (e + k - 53)) + (e + k - 53)) at 1 by lia.
    rewrite bpow_add, (bpow_IZR (e' - (e + k - 53))) by lia.
    rewrite <- Rmult_assoc, <- mult_IZR, Hc. reflexivity. }
  assert (L1 : (IZR t * B <= IZR m * bpow e)%R).
  { rewrite EB. replace (IZR t * (bpow e * IZR P))%R with (IZR (t * P) * bpow e)%R
      by (rewrite mult_IZR; ring).
    apply Rmult_le_compat_r; [left; apply bpow_pos|]. apply IZR_le. lia. }
  assert (L2 : ((IZR m + 1) * bpow e <= (IZR t + 1) * B)%R).
  { rewrite <- !plus_IZR. rewrite EB. replace (IZR (t + 1) * (bpow e * IZR P))%R with (IZR ((t + 1) * P) * bpow e)%R
      by (rewrite mult_IZR; ring).
    apply Rmult_le_compat_r; [left; apply bpow_pos|]. apply IZR_le. lia. }
  assert (L3 : (IZR t * B <= IZR c * B)%R)
    by (apply Rmult_le_compat_r; [lra|]; apply IZR_le; lia).
  assert (L4 : (IZR c * B <= IZR (t + 1) * B)%R)
    by (apply Rmult_le_compat_r; [lra|]; apply IZR_le; lia).
  assert (L5 : (4503599627370496 * B <= IZR t * B)%R).
  { apply Rmult_le_compat_r; [lra|]. apply IZR_le. cbn in Hn52. lia. }
  rewrite plus_IZR in L4, Hx.
  exists m', e'. rewrite EF. unfold eps.
  split; [assumption|]. split; [assumption|]. split; [assumption|].
  split; [lra|].
  intros K L. rewrite (Hex K L). unfold B. rewrite K.
  replace (e + 53 - 53) with e by lia. reflexivity.
Qed.

Lemma Zdigits2_range m a b k :
  0 <= a -> 2 ^ a <= m < 2 ^ b -> Zdigits2 m = k -> a < k <= b.
Proof.
  intros Ha [Hlo Hhi] Hk.
  assert (Hm : 0 < m) by (pose proof (Z.pow_pos_nonneg 2 a); lia).
  destruct (Zdigits2_pos_bounds m k Hm Hk) as [Klo Khi].
  assert (0 < k).
  { destruct m; try lia. cbn in Hk. lia. }
  split.
  - destruct (Z_lt_le_dec a k); auto.
    assert (2 ^ k <= 2 ^ a) by (apply Z.pow_le_mono_r; lia). lia.
  - destruct (Z_lt_le_dec b k); [|lia].
    assert (2 ^ b <= 2 ^ (k - 1)) by (apply Z.pow_le_mono_r; lia). lia.
Qed.

(** One multiplication and one division of normal floats: the result
    is normal and within a relative [eps] of the exact product or
    quotient. *)
Lemma mul_normal m1 e1 m2 e2 :
  normal m1 -> normal m2 -> -1100 <= e1 + e2 <= 900 ->
  exists m e,
    F64.mul (S754_finite false m1 e1) (S754_finite false m2 e2) = S754_finite false m e
    /\ normal m
    /\ e1 + e2 + 52 <= e <= e1 + e2 + 54
    /\ (F2R m1 e1 * F2R m2 e2 * (1 - eps) <= F2R m e
        <= F2R m1 e1 * F2R m2 e2 * (1 + eps))%R.
Proof.
  intros N1 N2 He. unfold normal in *.
  cbv [F64.mul F64.prec F64.emax].
  unfold SFmul. cbn [xorb].
  set (m := Zpos (m1 * m2)).
  assert (Hm : 2 ^ 104 <= m < 2 ^ 106).
  { unfold m. rewrite Pos2Z.inj_mul.
    change (2 ^ 104) with (2 ^ 52 * 2 ^ 52). change (2 ^ 106) with (2 ^ 53 * 2 ^ 53).
    split; [apply Z.mul_le_mono_nonneg | apply Z.mul_lt_mono_nonneg]; lia. }
  destruct (Zdigits2_range m 104 106 (Zdigits2 m) ltac:(lia) Hm eq_refl) as [K1 K2].
  destruct (binary_round_aux_R m (e1 + e2) loc_Exact (Zdigits2 m)
              (F2R m1 e1 * F2R m2 e2)%R) as (m' & e' & E & Hn & Hex & Hb & _);
    try lia; try reflexivity.
  - unfold F2R, m. rewrite plus_IZR, Pos2Z.inj_mul, mult_IZR, bpow_add.
    pose proof (bpow_pos e1). pose proof (bpow_pos e2).
    assert (0 < bpow e1 * bpow e2)%R by (apply Rmult_lt_0_compat; assumption).
    split; [right; ring|].
    replace (IZR (Zpos m1) * bpow e1 * (IZR (Zpos m2) * bpow e2))%R
      with (IZR (Zpos m1) * IZR (Zpos m2) * (bpow e1 * bpow e2))%R by ring.
    lra.
  - exists m', e'. repeat split; try lia; try apply Hb. exact E.
Qed.

Lemma div_normal m1 e1 m2 e2 :
  normal m1 -> normal m2 -> -1000 <= e1 - e2 <= 1000 ->
  exists m e,
    F64.div (S754_finite false m1 e1) (S754_finite false m2 e2) = S754_finite false m e
    /\ normal m
    /\ e1 - e2 - 53 <= e <= e1 - e2 - 51
    /\ (F2R m1 e1 / F2R m2 e2 * (1 - eps) <= F2R m e
        <= F2R m1 e1 / F2R m2 e2 * (1 + eps))%R.
Proof.
  intros N1 N2 He. unfold normal in *.
  cbv [F64.div F64.prec F64.emax].
  unfold SFdiv, SFdiv_core_binary. cbn [xorb Zdigits2].
  rewrite (digits_unique m1 53), (digits_unique m2 53) by (cbn; lia).
  replace (Z.min (fexp 53 1024 (53 + e1 - (53 + e2))) (e1 - e2)) with (e1 - e2 - 53)
    by (unfold fexp, emin; lia).
  replace (e1 - e2 - (e1 - e2 - 53)) with 53 by lia.
  cbv iota. rewrite Z.shiftl_mul_pow2 by lia.
  set (m' := Zpos m1 * 2 ^ 53).
  pose proof (Z_div_mod m' (Zpos m2) ltac:(lia)) as D.
  destruct (Z.div_eucl m' (Zpos m2)) as [q r]. destruct D as [D Hr].
  assert (Hq : 2 ^ 52 <= q < 2 ^ 54).
  { unfold m' in D. split.
    - destruct (Z_lt_le_dec q (2 ^ 52)) as [L|]; [exfalso|assumption].
      assert (Zpos m2 * (q + 1) <= Zpos m2 * 2 ^ 52)
        by (apply Z.mul_le_mono_nonneg_l; lia).
      lia.
    - destruct (Z_lt_le_dec q (2 ^ 54)) as [|G]; [assumption|exfalso].
      assert (Zpos m2 * 2 ^ 54 <= Zpos m2 * q)
        by (apply Z.mul_le_mono_nonneg_l; lia).
      lia. }
  destruct (Zdigits2_range q 52 54 (Zdigits2 q) ltac:(lia) Hq eq_refl) as [K1 K2].
  destruct (binary_round_aux_R q (e1 - e2 - 53) (new_location (Zpos m2) r) (Zdigits2 q)
              (F2R m1 e1 / F2R m2 e2)%R) as (m3 & e3 & E & Hn & Hex & Hb & _);
    try lia; try reflexivity.
  - unfold F2R.
    set (M2 := IZR (Zpos m2)). set (D0 := bpow (e1 - e2 - 53)).
    assert (HM2 : (0 < M2)%R) by (apply IZR_lt; lia).
    assert (HD0 : (0 < D0)%R) by apply bpow_pos.
    pose proof (bpow_pos e2) as HB2.
    assert (E1 : bpow e1 = (D0 * IZR (2 ^ 53) * bpow e2)%R).
    { unfold D0. rewrite <- (bpow_IZR 53), <- !bpow_add by lia. f_equal. lia. }
    assert (EM : (IZR (Zpos m1) * IZR (2 ^ 53) = M2 * IZR q + IZR r)%R).
    { unfold M2. rewrite <- !mult_IZR, <- plus_IZR. f_equal. exact D. }
    set (u := (IZR r / M2)%R).
    assert (Eu : (u * M2 = IZR r)%R) by (unfold u; field; lra).
    assert (Hr' : (0 <= IZR r < M2)%R).
    { split; [apply IZR_le; lia | apply IZR_lt; lia]. }
    assert (Hu : (0 <= u < 1)%R) by (split; nra).
    assert (Ex : (IZR (Zpos m1) * bpow e1 / (M2 * bpow e2) = (IZR q + u) * D0)%R).
    { rewrite E1. unfold u.
      replace (IZR (Zpos m1) * (D0 * IZR (2 ^ 53) * bpow e2))%R
        with ((IZR (Zpos m1) * IZR (2 ^ 53)) * D0 * bpow e2)%R by ring.
      rewrite EM. field. lra. }
    rewrite Ex, plus_IZR. split; nra.
  - exists m3, e3. repeat split; try lia; try apply Hb. exact E.
Qed.

Lemma iter_xO_pow p q : Zpos (Pos.iter xO p q) = Zpos p * 2 ^ Zpos q.
Proof.
  rewrite <- Z.shiftl_mul_pow2 by lia. cbn [Z.shiftl].
  apply (Pos.iter_swap_gen _ _ Zpos xO (Z.mul 2)). reflexivity.
Qed.

(** Converting an integer below 2^53 is exact. *)
Lemma of_Z_normal d :
  0 < d < 2 ^ 53 ->
  exists m e,
    F64.of_Z d = S754_finite false m e
    /\ normal m /\ -52 <= e <= 1 /\ F2R m e = IZR d.
Proof.
  intros Hd. destruct d as [|p|p]; try lia.
  cbv [F64.of_Z F64.prec F64.emax]. unfold binary_normalize, binary_round.
  destruct (Zdigits2_range (Zpos p) 0 53 (Zpos (digits2_pos p)) ltac:(lia) ltac:(cbn; lia) eq_refl)
    as [K1 K2].
  pose proof (digits2_pos_bounds p) as Hb.
  set (kd := Zpos (digits2_pos p)) in *.
  replace (fexp 53 1024 (kd + 0)) with (kd - 53) by (unfold fexp, emin; lia).
  unfold shl_align.
  destruct (kd - 53 - 0) as [|q|q] eqn:Eq; try lia.
  - destruct (binary_round_aux_R (Zpos p) 0 loc_Exact 53 (IZR (Zpos p) * bpow 0)%R)
      as (m' & e' & E & Hn & He & _ & Hex); try lia.
    + cbn. f_equal. lia.
    + rewrite plus_IZR. pose proof (bpow_pos 0). split; [lra|nra].
    + exists m', e'. rewrite E. repeat split; try apply Hn; try lia.
      rewrite Hex by auto. rewrite bpow_0. ring.
  - assert (Hq : kd - 53 = - Zpos q) by lia.
    set (mz := Pos.iter xO p q).
    assert (Emz : Zpos mz = Zpos p * 2 ^ Zpos q) by apply iter_xO_pow.
    assert (Nz : 2 ^ 52 <= Zpos mz < 2 ^ 53).
    { rewrite Emz.
      assert (E52 : 2 ^ 52 = 2 ^ (kd - 1) * 2 ^ Zpos q)
        by (rewrite <- Z.pow_add_r by lia; f_equal; lia).
      assert (E53 : 2 ^ 53 = 2 ^ kd * 2 ^ Zpos q)
        by (rewrite <- Z.pow_add_r by lia; f_equal; lia).
      assert (0 < 2 ^ Zpos q) by (apply Z.pow_pos_nonneg; lia).
      rewrite E52, E53. split.
      - apply Z.mul_le_mono_nonneg_r; lia.
      - apply Z.mul_lt_mono_pos_r; lia. }
    destruct (binary_round_aux_R (Zpos mz) (kd - 53) loc_Exact 53
                (IZR (Zpos mz) * bpow (kd - 53))%R)
      as (m' & e' & E & Hn & He & _ & Hex); try lia.
    + apply digits_unique. exact Nz.
    + rewrite plus_IZR. pose proof (bpow_pos (kd - 53)). split; [lra|nra].
    + exists m', e'. rewrite E. repeat split; try apply Hn; try lia.
      rewrite Hex by auto. rewrite Emz, mult_IZR, Hq, <- bpow_IZR by lia.
      rewrite Rmult_assoc, (Rmult_comm (bpow (Zpos q))), bpow_opp_mul. ring.
Qed.

(** [trunc] is the floor of a positive float. *)
Lemma trunc_floor m e :
  (IZR (F64.trunc (S754_finite false m e)) <= F2R m e
   < IZR (F64.trunc (S754_finite false m e)) + 1)%R.
Proof.
  unfold F64.trunc, F2R. destruct e as [|p|p].
  - rewrite Z.shiftl_0_r, bpow_0. lra.
  - rewrite Z.shiftl_mul_pow2, mult_IZR, <- bpow_IZR by lia. lra.
  - rewrite Z.shiftr_div_pow2 by lia.
    set (P := 2 ^ Zpos p).
    assert (HP : 0 < P) by (apply Z.pow_pos_nonneg; lia).
    pose proof (Z.div_mod (Zpos m) P ltac:(lia)) as D.
    pose proof (Z.mod_pos_bound (Zpos m) P HP) as M.
    set (q := Zpos m / P) in *. set (r := Zpos m mod P) in *.
    assert (EB : (bpow (Zneg p) * IZR P = 1)%R).
    { unfold P. rewrite <- bpow_IZR by lia. apply (bpow_opp_mul (Zpos p)). }
    pose proof (bpow_pos (Zneg p)) as HB.
    assert (HPR : (0 < IZR P)%R) by (apply IZR_lt; lia).
    rewrite D, plus_IZR, mult_IZR.
    assert (Hr : (0 <= IZR r < IZR P)%R)
      by (split; [apply IZR_le|apply IZR_lt]; lia).
    set (b := bpow (Zneg p)) in *.
    replace ((IZR P * IZR q + IZR r) * b)%R with (IZR q * (b * IZR P) + IZR r * b)%R by ring.
    rewrite EB. 
    assert (0 <= IZR r * b)%R by (apply Rmult_le_pos; lra).
    assert (IZR r * b < IZR P * b)%R by (apply Rmult_lt_compat_r; lra).
    lra.
Qed.

Lemma to_int64_trunc m e :
  (F2R m e < 9223372036854775808)%R ->
  F64.to_int64 (S754_finite false m e) = F64.trunc (S754_finite false m e)
  /\ 0 <= F64.trunc (S754_finite false m e).
Proof.
  intros H. pose proof (trunc_floor m e) as [Lo Hi].
  set (t := F64.trunc (S754_finite false m e)) in *.
  assert (Ht : 0 <= t).
  { unfold t, F64.trunc. destruct e.
    - rewrite Z.shiftl_0_r. lia.
    - rewrite Z.shiftl_mul_pow2 by lia. apply Z.mul_nonneg_nonneg; [lia|]. apply Z.pow_nonneg; lia.
    - rewrite Z.shiftr_div_pow2 by lia. apply Z.div_pos; [lia|]. apply Z.pow_pos_nonneg; lia. }
  assert (Hlt : t < 2 ^ 63).
  { apply lt_IZR. change (IZR (2 ^ 63)) with 9223372036854775808%R. lra. }
  split; [|exact Ht].
  unfold F64.to_int64. fold t. cbn [F64.is_finite andb].
  replace (- 2 ^ 63 <=? t) with true by (symmetry; apply Z.leb_le; lia).
  replace (t <? 2 ^ 63) with true by (symmetry; apply Z.ltb_lt; lia).
  reflexivity.
Qed.

(** ** The duration of what was captured, and the next period *)

(** Line 239 in the target profile: five roundings away from
    [DataSize * 10^9 / 176400], then the floor. *)
Lemma currentDuration_profile (a : WAVEFormat) :
  BitsPerSample a = 16 -> Channels a = 2 -> SamplesPerSec a = 44100 ->
  0 < DataSize a < 2 ^ 32 ->
  (IZR (DataSize a) * (1000000000 / 176400) * (1 - 5 * eps) - 1
     < IZR (currentDuration a)
     <= IZR (DataSize a) * (1000000000 / 176400) * (1 + 5 * eps))%R.
Proof.
  intros Hb Hc Hs Hd. unfold currentDuration. rewrite Hb, Hc, Hs.
  change (16 / 8) with 2. unfold Second.
  set (d := DataSize a) in *.
  destruct (of_Z_normal d ltac:(lia)) as (m0 & e0 & E0 & N0 & R0 & V0).
  destruct (of_Z_normal 2 ltac:(lia)) as (m2 & e2 & E2 & N2 & R2 & V2).
  destruct (of_Z_normal 44100 ltac:(lia)) as (ms & es & Es & Ns & Rs & Vs).
  destruct (of_Z_normal 1000000000 ltac:(lia)) as (mg & eg & Eg & Ng & Rg & Vg).
  rewrite E0, E2, Es, Eg.
  destruct (div_normal m0 e0 m2 e2 N0 N2 ltac:(lia)) as (m1 & e1 & E1 & N1 & R1 & V1).
  rewrite E1.
  destruct (div_normal m1 e1 m2 e2 N1 N2 ltac:(lia)) as (m3 & e3 & E3 & N3 & R3 & V3).
  rewrite E3.
  destruct (div_normal m3 e3 ms es N3 Ns ltac:(lia)) as (m4 & e4 & E4 & N4 & R4 & V4).
  rewrite E4.
  destruct (mul_normal m4 e4 mg eg N4 Ng ltac:(lia)) as (m5 & e5 & E5 & N5 & R5 & V5).
  rewrite E5.
  rewrite V0, V2 in V1. rewrite V2 in V3. rewrite Vs in V4. rewrite Vg in V5.
  assert (HD : (1 <= IZR d <= 4294967295)%R).
  { split; apply IZR_le; lia. }
  unfold eps in *.
  assert (Hbig : (F2R m5 e5 < 9223372036854775808)%R) by lra.
  destruct (to_int64_trunc m5 e5 Hbig) as [Et _]. rewrite Et.
  pose proof (trunc_floor m5 e5) as [Lo Hi].
  split; lra.
Qed.

Lemma currentDuration_zero (a : WAVEFormat) :
  BitsPerSample a = 16 -> Channels a = 2 -> SamplesPerSec a = 44100 ->
  DataSize a = 0 -> currentDuration a = 0.
Proof.
  intros Hb Hc Hs Hd. unfold currentDuration. rewrite Hb, Hc, Hs, Hd.
  vm_compute. reflexivity.
Qed.

(** The gate for one second fires exactly above 176400 bytes. *)
Lemma gate_profile (a : WAVEFormat) :
  BitsPerSample a = 16 -> Channels a = 2 -> SamplesPerSec a = 44100 ->
  0 <= DataSize a < 2 ^ 32 ->
  (shouldStop Second (currentDuration a) = true <-> 176400 < DataSize a).
Proof.
  intros Hb Hc Hs Hd. unfold shouldStop, Second.
  change (negb (1000000000 =? 0)) with true. cbn [andb].
  rewrite Z.gtb_ltb, Z.ltb_lt.
  destruct (Z.eq_dec (DataSize a) 0) as [Z0|NZ].
  - rewrite (currentDuration_zero a Hb Hc Hs Z0). lia.
  - pose proof (currentDuration_profile a Hb Hc Hs ltac:(lia)) as [Lo Hi].
    unfold eps in *.
    split; intros H.
    + destruct (Z_lt_le_dec 176400 (DataSize a)) as [|L]; [assumption|exfalso].
      apply IZR_le in L.
      assert (currentDuration a < 1000000000 + 1) by (apply lt_IZR; rewrite plus_IZR; lra).
      lia.
    + assert (L : 176401 <= DataSize a) by lia. apply IZR_le in L.
      apply lt_IZR. lra.
Qed.

(** Line 263 at 44100 Hz is the exact period to within two nanoseconds. *)
Lemma nextPeriod_bounds (bufferFrameSize padding : Z) :
  0 < bufferFrameSize - padding < 2 ^ 32 ->
  (bufferFrameSize - padding) * 1000000000 - 2 * 44100
    < 44100 * nextPeriod bufferFrameSize padding 44100
    < (bufferFrameSize - padding) * 1000000000 + 44100.
Proof.
  intros Hn. unfold nextPeriod.
  assert (Eu : u32 (bufferFrameSize - padding) = bufferFrameSize - padding)
    by (unfold u32; apply Z.mod_small; lia).
  rewrite Eu. set (n := bufferFrameSize - padding) in *. unfold Second.
  destruct (of_Z_normal n ltac:(lia)) as (m0 & e0 & E0 & N0 & R0 & V0).
  destruct (of_Z_normal 44100 ltac:(lia)) as (ms & es & Es & Ns & Rs & Vs).
  destruct (of_Z_normal 1000000000 ltac:(lia)) as (mg & eg & Eg & Ng & Rg & Vg).
  destruct (div_normal m0 e0 ms es N0 Ns ltac:(lia)) as (m1 & e1 & E1 & N1 & R1 & V1).
  destruct (mul_normal m1 e1 mg eg N1 Ng ltac:(lia)) as (m2 & e2 & E2 & N2 & R2 & V2).
  rewrite V0, Vs in V1. rewrite Vg in V2.
  assert (HD : (1 <= IZR n <= 4294967295)%R) by (split; apply IZR_le; lia).
  unfold eps in *.
  assert (Hbig : (F2R m2 e2 < 9223372036854775808)%R) by lra.
  destruct (to_int64_trunc m2 e2 Hbig) as [Et _].
  pose proof (trunc_floor m2 e2) as [Lo Hi].
  rewrite E0, Es, Eg, E1, E2, Et.
  split; apply lt_IZR;
    repeat rewrite ?minus_IZR, ?plus_IZR, ?mult_IZR; lra.
Qed.





(** ** The loop *)

(** The copy loop appends the region, in order. *)
Lemma copy_loop_region mem start count : forall n raw,
  copy_loop mem start n count raw = raw ++ region mem (start + n) count.
Proof.
  unfold region. induction count as [|c IH]; intros n raw; cbn [copy_loop].
  - cbn. rewrite app_nil_r. reflexivity.
  - rewrite IH. cbn [seq map]. rewrite <- app_assoc. cbn [app].
    rewrite Z.add_0_r. f_equal. f_equal.
    rewrite <- seq_shift, map_map. apply map_ext. intros i.
    f_equal. f_equal. lia.
Qed.

Lemma region_length mem start count : List.length (region mem start count) = count.
Proof. unfold region. rewrite length_map, length_seq. reflexivity. Qed.

Lemma new_audio_const w :
  new_audio (override w) = mkWAVEFormat 0 2 44100 176400 4 16 0 [].
Proof. reflexivity. Qed.

Lemma u32_u32_add a b : u32 (a + u32 b) = u32 (a + b).
Proof. unfold u32. apply Zplus_mod_idemp_r. Qed.

Lemma files_written_app t1 t2 :
  files_written (t1 ++ t2) = files_written t1 ++ files_written t2.
Proof.
  induction t1 as [|ev t1 IH]; [reflexivity|].
  destruct ev; cbn; rewrite ?IH; reflexivity.
Qed.

Lemma extends_refl s : is_u32 (DataSize (audio s)) -> extends s s.
Proof.
  intros H. split; try reflexivity.
  - exists []. rewrite app_nil_r. split; [reflexivity|].
    cbn. rewrite Z.add_0_r. unfold u32. symmetry. apply Z.mod_small. exact H.
  - exists []. rewrite app_nil_r. split; reflexivity.
Qed.

Lemma extends_trans s1 s2 s3 : extends s1 s2 -> extends s2 s3 -> extends s1 s3.
Proof.
  intros [A1 A2 A3 A4 A5 A6 (l1 & R1 & D1) (t1 & E1 & W1)]
         [B1 B2 B3 B4 B5 B6 (l2 & R2 & D2) (t2 & E2 & W2)].
  split; try congruence.
  - exists (l1 ++ l2). split.
    + rewrite R2, R1, app_assoc. reflexivity.
    + rewrite D2, D1, length_app, Nat2Z.inj_add.
      unfold u32. rewrite Zplus_mod_idemp_l. f_equal. lia.
  - exists (t1 ++ t2). split.
    + rewrite E2, E1, app_assoc. reflexivity.
    + rewrite files_written_app, W1, W2. reflexivity.
Qed.

Lemma extends_is_u32 s s' : extends s s' -> is_u32 (DataSize (audio s')).
Proof.
  intros [_ _ _ _ _ _ (l & _ & D) _]. rewrite D. unfold u32, is_u32.
  apply Z.mod_pos_bound. lia.
Qed.

Lemma shouldStop_iff (requested current : Duration) :
  shouldStop requested current = true <-> requested <> 0 /\ current > requested.
Proof.
  unfold shouldStop. rewrite andb_true_iff, negb_true_iff, Z.eqb_neq, Z.gtb_ltb, Z.ltb_lt.
  lia.
Qed.

Lemma same_format_trans a b c : same_format a b -> same_format b c -> same_format a c.
Proof. unfold same_format. intuition congruence. Qed.

Lemma extends_same s s' evs :
  is_u32 (DataSize (audio s)) ->
  audio s' = audio s -> events s' = events s ++ evs -> files_written evs = [] ->
  extends s s'.
Proof.
  intros Hu Ea Ee Hw. split; rewrite ?Ea; try reflexivity.
  - exists []. rewrite app_nil_r. split; [reflexivity|].
    cbn. rewrite Z.add_0_r. unfold u32. symmetry. apply Z.mod_small. exact Hu.
  - exists evs. split; assumption.
Qed.

Lemma extends_accumulated env k p lim bufferFrameSize padding sps s :
  0 <= lim ->
  extends s (accumulated env k p lim bufferFrameSize padding sps s).
Proof.
  intros Hl. unfold accumulated. split; cbn; try reflexivity.
  - eexists. split; [reflexivity|].
    rewrite region_length, Z2Nat.id by exact Hl. reflexivity.
  - eexists. split; reflexivity.
Qed.

Section Loop.

Variable env : Env.
Variable wfx : WAVEFORMATEX.
Variable bufferFrameSize : Z.
Variable duration : Duration.

(** The round that takes a packet, as one equation. *)
Lemma iteration_accumulate k s p padding :
  isCapturing s = true ->
  interrupted env k = false ->
  shouldStop duration (currentDuration (audio s)) = false ->
  GetBuffer env k = inr p ->
  availableFrameSize p <> 0 ->
  GetCurrentPadding env k = inr padding ->
  iteration env wfx bufferFrameSize duration k s =
  let s' := accumulated env k p (availableFrameSize p * NBlockAlign wfx)
              bufferFrameSize padding (NSamplesPerSec wfx) s in
  match ReleaseBuffer env k (availableFrameSize p) with
  | Some e => Abort e s'
  | None => Again s'
  end.
Proof.
  intros Hc Hi Hg Hb Ha Hp. unfold iteration.
  rewrite Hc, Hi, Hg, Hb. cbn [negb].
  apply Z.eqb_neq in Ha. rewrite Ha, Hp.
  cbv zeta. unfold accumulated, emit, set_audio, set_capturingPeriod.
  cbn [audio events isCapturing capturingPeriod RawData DataSize
       set_RawData set_DataSize].
  rewrite copy_loop_region, Z.add_0_r, u32_u32_add.
  rewrite <- !app_assoc. cbn [app].
  destruct (ReleaseBuffer env k (availableFrameSize p)); reflexivity.
Qed.

Lemma iteration_empty k s p :
  isCapturing s = true ->
  interrupted env k = false ->
  shouldStop duration (currentDuration (audio s)) = false ->
  GetBuffer env k = inr p ->
  availableFrameSize p = 0 ->
  iteration env wfx bufferFrameSize duration k s = Again (emit EvGetBuffer s).
Proof.
  intros Hc Hi Hg Hb Ha. unfold iteration.
  rewrite Hc, Hi, Hg, Hb, Ha. reflexivity.
Qed.

(** Whatever a round does, its state extends the one it started from. *)
Lemma iteration_extends k s :
  wf_env env -> 0 <= NBlockAlign wfx ->
  is_u32 (DataSize (audio s)) ->
  extends s (step_state (iteration env wfx bufferFrameSize duration k s)).
Proof.
  intros He Hw Hu.
  destruct (isCapturing s) eqn:Hc.
  2:{ unfold iteration. rewrite Hc. cbn. apply extends_refl. exact Hu. }
  destruct (interrupted env k) eqn:Hi.
  { unfold iteration. rewrite Hc, Hi. cbn [negb step_state].
    eapply extends_same; [exact Hu|reflexivity|reflexivity|reflexivity]. }
  destruct (shouldStop duration (currentDuration (audio s))) eqn:Hg.
  { unfold iteration. rewrite Hc, Hi, Hg. cbn [negb step_state].
    apply (extends_same _ _ []); [exact Hu|reflexivity| |reflexivity].
    cbn. rewrite app_nil_r. reflexivity. }
  destruct (GetBuffer env k) as [e|p] eqn:Hb.
  { unfold iteration. rewrite Hc, Hi, Hg, Hb. cbn [negb step_state].
    eapply extends_same; [exact Hu|reflexivity|reflexivity|reflexivity]. }
  destruct (Z.eq_dec (availableFrameSize p) 0) as [Ha|Ha].
  { rewrite (iteration_empty k s p) by assumption.
    eapply extends_same; [exact Hu|reflexivity|reflexivity|reflexivity]. }
  destruct (GetCurrentPadding env k) as [e|padding] eqn:Hp.
  { unfold iteration. rewrite Hc, Hi, Hg, Hb, Hp. cbn [negb].
    apply Z.eqb_neq in Ha. rewrite Ha. cbv zeta. cbn [step_state].
    pose proof (He k p Hb) as Hr. unfold is_u32 in Hr.
    split; cbn; try reflexivity.
    - eexists. split; [rewrite copy_loop_region; reflexivity|].
      rewrite region_length, Z2Nat.id by (apply Z.mul_nonneg_nonneg; lia).
      apply u32_u32_add.
    - eexists. rewrite <- !app_assoc. split; reflexivity. }
  rewrite (iteration_accumulate k s p padding)
    by assumption.
  pose proof (He k p Hb) as Hr. unfold is_u32 in Hr.
  cbv zeta.
  destruct (ReleaseBuffer env k (availableFrameSize p)); cbn [step_state];
    apply extends_accumulated; apply Z.mul_nonneg_nonneg; lia.
Qed.

Lemma loop_extends fuel : forall k s,
  wf_env env -> 0 <= NBlockAlign wfx ->
  is_u32 (DataSize (audio s)) ->
  extends s (result_state (loop env wfx bufferFrameSize duration fuel k s)).
Proof.
  induction fuel as [|fuel IH]; intros k s He Hw Hu; cbn [loop].
  - apply extends_refl. exact Hu.
  - pose proof (iteration_extends k s He Hw Hu) as Hs.
    destruct (iteration env wfx bufferFrameSize duration k s) as [s'|s'|e s'];
      cbn [step_state result_state] in *; try exact Hs.
    eapply extends_trans; [exact Hs|]. apply IH; try assumption.
    eapply extends_is_u32. exact Hs.
Qed.

(** Rounds compose. *)
Lemma loop_app n1 : forall n2 k s,
  loop env wfx bufferFrameSize duration (n1 + n2) k s =
  match loop env wfx bufferFrameSize duration n1 k s with
  | Looping s' => loop env wfx bufferFrameSize duration n2 (n1 + k)%nat s'
  | r => r
  end.
Proof.
  induction n1 as [|n1 IH]; intros n2 k s; cbn [loop Nat.add]; [reflexivity|].
  destruct (iteration env wfx bufferFrameSize duration k s); try reflexivity.
  rewrite IH. rewrite Nat.add_succ_r. reflexivity.
Qed.

(** A round that starts capturing and without a pending interrupt ends
    with [isCapturing] false exactly when the gate fires. *)
Lemma iteration_gate k s :
  isCapturing s = true -> interrupted env k = false ->
  (isCapturing (step_state (iteration env wfx bufferFrameSize duration k s)) = false
   <-> shouldStop duration (currentDuration (audio s)) = true).
Proof.
  intros Hc Hi.
  destruct (shouldStop duration (currentDuration (audio s))) eqn:Hg.
  - unfold iteration. rewrite Hc, Hi, Hg. cbn. tauto.
  - split; [|discriminate]. intros H. exfalso. revert H.
    destruct (GetBuffer env k) as [e|p] eqn:Hb.
    { unfold iteration. rewrite Hc, Hi, Hg, Hb. cbn. congruence. }
    destruct (Z.eq_dec (availableFrameSize p) 0) as [Ha|Ha].
    { rewrite (iteration_empty k s p) by assumption.
      cbn. congruence. }
    destruct (GetCurrentPadding env k) as [e|padding] eqn:Hp.
    { unfold iteration. rewrite Hc, Hi, Hg, Hb, Hp. cbn [negb].
      apply Z.eqb_neq in Ha. rewrite Ha. cbn. congruence. }
    rewrite (iteration_accumulate k s p padding)
      by assumption.
    cbv zeta. destruct (ReleaseBuffer env k (availableFrameSize p)); cbn; congruence.
Qed.

(** While capturing, a round never leaves the loop itself. *)
Lemma iteration_not_Leave k s s' :
  isCapturing s = true -> iteration env wfx bufferFrameSize duration k s <> Leave s'.
Proof.
  intros Hc. unfold iteration. rewrite Hc. cbn [negb].
  destruct (interrupted env k); [discriminate|].
  destruct (shouldStop duration (currentDuration (audio s))); [discriminate|].
  destruct (GetBuffer env k) as [e|p]; [discriminate|].
  destruct (availableFrameSize p =? 0); [discriminate|].
  cbv zeta.
  destruct (GetCurrentPadding env k) as [e|padding]; [discriminate|].
  destruct (ReleaseBuffer env k (availableFrameSize p)); discriminate.
Qed.

(** No round touches a format field. *)
Lemma iteration_format k s :
  same_format (audio s)
    (audio (step_state (iteration env wfx bufferFrameSize duration k s))).
Proof.
  unfold iteration.
  destruct (isCapturing s); cbn [negb step_state]; [|repeat split].
  destruct (interrupted env k); [repeat split|].
  destruct (shouldStop duration (currentDuration (audio s))); [repeat split|].
  destruct (GetBuffer env k) as [e|p]; [repeat split|].
  destruct (availableFrameSize p =? 0); [repeat split|].
  cbv zeta.
  destruct (GetCurrentPadding env k) as [e|padding]; [repeat split|].
  destruct (ReleaseBuffer env k (availableFrameSize p)); repeat split.
Qed.

Lemma loop_format fuel : forall k s,
  same_format (audio s)
    (audio (result_state (loop env wfx bufferFrameSize duration fuel k s))).
Proof.
  induction fuel as [|fuel IH]; intros k s; cbn [loop].
  - repeat split.
  - pose proof (iteration_format k s) as H.
    destruct (iteration env wfx bufferFrameSize duration k s) as [s'|s'|e s'];
      cbn [step_state result_state] in *; try exact H.
    eapply same_format_trans; [exact H | apply IH].
Qed.

(** A failing call ends the round, and the loop, with its error. *)
Lemma round_fails_aborts k s e :
  isCapturing s = true ->
  interrupted env k = false ->
  shouldStop duration (currentDuration (audio s)) = false ->
  round_fails env k e ->
  exists s', iteration env wfx bufferFrameSize duration k s = Abort e s'.
Proof.
  intros Hc Hi Hg [Hb|(p & Hb & Ha & [Hp|(padding & Hp & Hr)])].
  - unfold iteration. rewrite Hc, Hi, Hg, Hb. cbn. eexists. reflexivity.
  - unfold iteration. rewrite Hc, Hi, Hg, Hb, Hp. cbn [negb].
    apply Z.eqb_neq in Ha. rewrite Ha. eexists. reflexivity.
  - rewrite (iteration_accumulate k s p padding)
      by assumption.
    cbv zeta. rewrite Hr. eexists. reflexivity.
Qed.

(** No round writes a file. *)
Lemma iteration_events k s :
  exists evs,
    events (step_state (iteration env wfx bufferFrameSize duration k s)) = events s ++ evs
    /\ files_written evs = [].
Proof.
  unfold iteration.
  destruct (isCapturing s); cbn [negb step_state];
    [|exists []; rewrite app_nil_r; split; reflexivity].
  destruct (interrupted env k); [eexists; split; reflexivity|].
  destruct (shouldStop duration (currentDuration (audio s)));
    [exists []; cbn; rewrite app_nil_r; split; reflexivity|].
  destruct (GetBuffer env k) as [e|p]; [eexists; split; reflexivity|].
  destruct (availableFrameSize p =? 0); [eexists; split; reflexivity|].
  cbv zeta.
  destruct (GetCurrentPadding env k) as [e|padding].
  { cbn. rewrite <- !app_assoc. eexists. split; reflexivity. }
  destruct (ReleaseBuffer env k (availableFrameSize p));
    cbn; rewrite <- !app_assoc; eexists; split; reflexivity.
Qed.

Lemma loop_events fuel : forall k s,
  exists evs,
    events (result_state (loop env wfx bufferFrameSize duration fuel k s)) = events s ++ evs
    /\ files_written evs = [].
Proof.
  induction fuel as [|fuel IH]; intros k s; cbn [loop].
  - exists []. cbn. rewrite app_nil_r. split; reflexivity.
  - destruct (iteration_events k s) as (e1 & E1 & W1).
    destruct (iteration env wfx bufferFrameSize duration k s) as [s'|s'|e s'];
      cbn [step_state result_state] in *; try (exists e1; split; assumption).
    destruct (IH (S k) s') as (e2 & E2 & W2).
    exists (e1 ++ e2). rewrite E2, E1, app_assoc, files_written_app, W1, W2.
    split; reflexivity.
Qed.

End Loop.

(** ** Properties of the encoder *)

Lemma slice_Bytes_riffSize v :
  slice 4 8 (Bytes v) = le_bytes 4 ((DataSize v + 36) mod 2 ^ 32).
Proof. rewrite Bytes_eq. expose_header. reflexivity. Qed.

Lemma slice_Bytes_dataSize v : slice 40 44 (Bytes v) = le_bytes 4 (DataSize v).
Proof. rewrite Bytes_eq. expose_header. reflexivity. Qed.

Lemma payload_Bytes v : payload (Bytes v) = RawData v.
Proof. rewrite Bytes_eq. expose_header. reflexivity. Qed.

Lemma Bytes_length v : List.length (Bytes v) = (44 + List.length (RawData v))%nat.
Proof. rewrite Bytes_eq, length_app, canonical_header_length. reflexivity. Qed.

Lemma u32_range x : is_u32 (x mod 2 ^ 32).
Proof. apply Z.mod_pos_bound. lia. Qed.

(** C1.  [Bytes] produces the canonical PCM WAV layout: the 44 bytes of
    the layout table ("RIFF", DataSize+36 as a little-endian uint32,
    "WAVEfmt ", 16, 1, channels, samplesPerSec, avgBytesPerSec,
    blockAlign, bitsPerSample, "data", DataSize, all little-endian),
    followed by the raw bytes.  For the 44100 Hz, 16-bit, stereo
    descriptor with 8 accumulated bytes the output has 52 bytes, bytes
    40..43 decode to 8 and bytes 4..7 to 44; for an empty capture the
    output is the 44 header bytes with data size 0 and nothing after. *)
Theorem Bytes_canonical_layout :
  (forall v : WAVEFormat,
      Bytes v = canonical_header v ++ RawData v
      /\ List.length (canonical_header v) = 44%nat)
  /\ (forall n x, 0 <= x < 256 ^ Z.of_nat n ->
        List.length (le_bytes n x) = n /\ le_value (le_bytes n x) = x)
  /\ (forall v : WAVEFormat,
        target_profile v -> DataSize v = 8 -> List.length (RawData v) = 8%nat ->
        List.length (Bytes v) = 52%nat
        /\ le_value (slice 40 44 (Bytes v)) = 8
        /\ le_value (slice 4 8 (Bytes v)) = 44)
  /\ (forall v : WAVEFormat,
        DataSize v = 0 -> RawData v = [] ->
        List.length (Bytes v) = 44%nat
        /\ le_value (slice 40 44 (Bytes v)) = 0
        /\ payload (Bytes v) = []).
Proof.
  split; [|split; [|split]].
  - intros v. split; [apply Bytes_eq | apply canonical_header_length].
  - intros n x Hx. split; [apply le_bytes_length | apply le_value_le_bytes; exact Hx].
  - intros v _ Hd Hr.
    rewrite Bytes_length, Hr, slice_Bytes_dataSize, slice_Bytes_riffSize, Hd.
    repeat split.
  - intros v Hd Hr.
    rewrite Bytes_length, Hr, slice_Bytes_dataSize, payload_Bytes, Hd, Hr.
    repeat split.
Qed.

Lemma Bytes_canonical_layout_witness :
  let v := mkWAVEFormat 0 2 44100 176400 4 16 8 [x01; x00; x02; x00; x03; x00; x04; x00] in
  List.length (Bytes v) = 52%nat
  /\ le_value (slice 40 44 (Bytes v)) = 8
  /\ le_value (slice 4 8 (Bytes v)) = 44.
Proof.
  intros v.
  apply (proj1 (proj2 (proj2 Bytes_canonical_layout)) v).
  - unfold target_profile. cbn. repeat split.
  - reflexivity.
  - reflexivity.
Defined.

(** C6.  Round trip: for a value whose [DataSize] is the length of its
    [RawData], reading the header of [Bytes] back gives the channels,
    samplesPerSec, avgBytesPerSec, blockAlign and bitsPerSample of the
    value, and a data size equal to the length of the raw bytes. *)
Theorem header_round_trip (v : WAVEFormat) :
  wf_WAVEFormat v ->
  DataSize v = Z.of_nat (List.length (RawData v)) ->
  exists h,
    decode_header (Bytes v) = Some h
    /\ h_channels h = Channels v
    /\ h_samplesPerSec h = SamplesPerSec v
    /\ h_avgBytesPerSec h = AvgBytesPerSec v
    /\ h_blockAlign h = BlockAlign v
    /\ h_bitsPerSample h = BitsPerSample v
    /\ h_dataSize h = Z.of_nat (List.length (RawData v))
    /\ h_dataSize h = Z.of_nat (List.length (payload (Bytes v)))
    /\ h_formatTag h = 1 /\ h_fmtSize h = 16
    /\ h_riffSize h = (DataSize v + 36) mod 2 ^ 32.
Proof.
  intros [Ht Hc Hs Ha Hb Hp Hd] Hlen.
  eexists. split; [apply decode_header_Bytes|].
  cbn [h_channels h_samplesPerSec h_avgBytesPerSec h_blockAlign h_bitsPerSample
       h_dataSize h_formatTag h_fmtSize h_riffSize].
  rewrite payload_Bytes, <- Hlen.
  unfold is_u16, is_u32 in *.
  pose proof (u32_range (DataSize v + 36)) as Hr. unfold is_u32 in Hr.
  change (256 ^ Z.of_nat 4) with (2 ^ 32) in *.
  change (256 ^ Z.of_nat 2) with (2 ^ 16) in *.
  rewrite !le_value_le_bytes; try lia; try (cbn; lia); repeat split.
Qed.

Lemma header_round_trip_witness :
  exists h,
    decode_header (Bytes (mkWAVEFormat 0 2 44100 176400 4 16 4 [x10; x00; xf0; xff])) = Some h
    /\ h_channels h = 2 /\ h_samplesPerSec h = 44100 /\ h_avgBytesPerSec h = 176400
    /\ h_blockAlign h = 4 /\ h_bitsPerSample h = 16 /\ h_dataSize h = 4.
Proof.
  destruct (header_round_trip (mkWAVEFormat 0 2 44100 176400 4 16 4 [x10; x00; xf0; xff]))
    as (h & E & H1 & H2 & H3 & H4 & H5 & H6 & _).
  - split; cbn; unfold is_u16, is_u32; lia.
  - reflexivity.
  - exists h. repeat split; assumption.
Defined.

(** C10.  For every [WAVEFormat], [Bytes] returns 44 + len(RawData)
    bytes: the length depends on [RawData] alone, while bytes 4..7 and
    40..43 depend on [DataSize] alone; so when [DataSize] differs from
    the length of [RawData] the data-size field of the header is not the
    length of the payload that follows it. *)
Theorem Bytes_length_from_RawData_sizes_from_DataSize :
  (forall v, List.length (Bytes v) = (44 + List.length (RawData v))%nat)
  /\ (forall v v', DataSize v = DataSize v' ->
        slice 4 8 (Bytes v) = slice 4 8 (Bytes v')
        /\ slice 40 44 (Bytes v) = slice 40 44 (Bytes v'))
  /\ (forall v, is_u32 (DataSize v) ->
        le_value (slice 4 8 (Bytes v)) = (DataSize v + 36) mod 2 ^ 32
        /\ le_value (slice 40 44 (Bytes v)) = DataSize v
        /\ payload (Bytes v) = RawData v)
  /\ (forall v, is_u32 (DataSize v) ->
        DataSize v <> Z.of_nat (List.length (RawData v)) ->
        le_value (slice 40 44 (Bytes v)) <> Z.of_nat (List.length (payload (Bytes v)))).
Proof.
  assert (F : forall v, is_u32 (DataSize v) ->
                le_value (slice 40 44 (Bytes v)) = DataSize v).
  { intros v H. rewrite slice_Bytes_dataSize. apply le_value_le_bytes.
    unfold is_u32 in H. change (256 ^ Z.of_nat 4) with (2 ^ 32). lia. }
  split; [|split; [|split]].
  - apply Bytes_length.
  - intros v v' E. rewrite !slice_Bytes_riffSize, !slice_Bytes_dataSize, E. split; reflexivity.
  - intros v H. split; [|split; [apply F; exact H | apply payload_Bytes]].
    rewrite slice_Bytes_riffSize. apply le_value_le_bytes.
    pose proof (u32_range (DataSize v + 36)) as U. unfold is_u32 in U.
    change (256 ^ Z.of_nat 4) with (2 ^ 32). lia.
  - intros v H N. rewrite (F v H), payload_Bytes. exact N.
Qed.

Lemma Bytes_length_from_RawData_sizes_from_DataSize_witness :
  let v := mkWAVEFormat 0 2 44100 176400 4 16 100 [x01; x02] in
  List.length (Bytes v) = 46%nat
  /\ le_value (slice 40 44 (Bytes v)) = 100
  /\ le_value (slice 40 44 (Bytes v)) <> Z.of_nat (List.length (payload (Bytes v))).
Proof.
  intros v.
  destruct Bytes_length_from_RawData_sizes_from_DataSize as (L & _ & F & N).
  assert (U : is_u32 (DataSize v)) by (unfold is_u32; cbn; lia).
  split; [apply (L v)|]. split; [apply (F v U)|].
  apply (N v U). cbn. lia.
Defined.

(** ** Properties of the duration gate *)

(** In the target profile the computed duration is the exact one,
    [DataSize / 176400] seconds, to within two nanoseconds. *)
Lemma currentDuration_near (a : WAVEFormat) :
  target_profile a -> is_u32 (DataSize a) ->
  DataSize a * 1000000000 - 2 * 176400 < 176400 * currentDuration a
  /\ 176400 * currentDuration a < DataSize a * 1000000000 + 176400.
Proof.
  intros (Hb & Hc & Hs) Hd. unfold is_u32 in Hd.
  destruct (Z.eq_dec (DataSize a) 0) as [Z0|NZ].
  - rewrite (currentDuration_zero a Hb Hc Hs Z0), Z0. lia.
  - pose proof (currentDuration_profile a Hb Hc Hs ltac:(lia)) as [Lo Hi].
    assert (HD : (1 <= IZR (DataSize a) <= 4294967295)%R)
      by (split; apply IZR_le; lia).
    unfold eps in *.
    split; apply lt_IZR;
      repeat rewrite ?minus_IZR, ?plus_IZR, ?mult_IZR; lra.
Qed.

(** C2.  The gate [shouldStop requested current] is true exactly when
    [requested] is not zero and [current] exceeds it.  For a requested
    duration of 1.0 s (the flag value "1") and the 44100 Hz, 16-bit,
    stereo format, where the current duration is [DataSize / 2 / 2 /
    44100] seconds, the gate fires exactly when more than 176400 bytes
    are accumulated, in the predicate and in the loop. *)
Theorem duration_gate :
  (forall requested current : Duration,
      shouldStop requested current = true <-> requested <> 0 /\ current > requested)
  /\ DurationFlag_Set 0 (inr (F64.of_Z 1)) = (Second, None)
  /\ (forall a : WAVEFormat,
        target_profile a -> is_u32 (DataSize a) ->
        (shouldStop Second (currentDuration a) = true <-> 176400 < DataSize a)
        /\ DataSize a * 1000000000 - 2 * 176400 < 176400 * currentDuration a
           < DataSize a * 1000000000 + 176400)
  /\ (forall env wfx bufferFrameSize k s,
        isCapturing s = true -> interrupted env k = false ->
        target_profile (audio s) -> is_u32 (DataSize (audio s)) ->
        (isCapturing (step_state (iteration env wfx bufferFrameSize Second k s)) = false
         <-> 176400 < DataSize (audio s))).
Proof.
  split; [exact shouldStop_iff|]. split; [vm_compute; reflexivity|]. split.
  - intros a Hp Hd. split.
    + destruct Hp as (Hb & Hc & Hs). apply gate_profile; assumption.
    + apply currentDuration_near; assumption.
  - intros env wfx B k s Hc Hi Hp Hd.
    rewrite iteration_gate by assumption.
    destruct Hp as (Hb & Hch & Hs). apply gate_profile; assumption.
Qed.

Lemma duration_gate_witness :
  (shouldStop Second (currentDuration (mkWAVEFormat 0 2 44100 176400 4 16 176404 [])) = true
   <-> 176400 < 176404)
  /\ (isCapturing (step_state (iteration (steady_env 441) (override mix_format) 8820 Second 0
                                 steady_start)) = false
      <-> 176400 < 0).
Proof.
  destruct duration_gate as (_ & _ & G & L). split.
  - apply (G (mkWAVEFormat 0 2 44100 176400 4 16 176404 [])).
    + unfold target_profile. cbn. repeat split.
    + unfold is_u32. cbn. lia.
  - apply (L (steady_env 441) (override mix_format) 8820 0%nat steady_start).
    + reflexivity.
    + reflexivity.
    + unfold target_profile. cbn. repeat split.
    + unfold is_u32. cbn. lia.
Defined.

(** With the duration zero and no interrupt the loop is never left:
    after any number of rounds it is still running, or a call failed. *)
Lemma zero_duration_unbounded env wfx bufferFrameSize fuel : forall k s s',
  isCapturing s = true ->
  (forall j, interrupted env j = false) ->
  loop env wfx bufferFrameSize 0 fuel k s <> Left s'.
Proof.
  induction fuel as [|fuel IH]; intros k s s' Hc Hi; cbn [loop]; [discriminate|].
  destruct (iteration env wfx bufferFrameSize 0 k s) as [s1|s1|e s1] eqn:E.
  - apply IH; [|exact Hi].
    pose proof (iteration_gate env wfx bufferFrameSize 0 k s Hc (Hi k)) as G.
    rewrite E in G. cbn [step_state] in G.
    destruct (isCapturing s1); [reflexivity|].
    destruct G as [G _]. specialize (G eq_refl). discriminate.
  - exfalso. exact (iteration_not_Leave env wfx bufferFrameSize 0 k s s1 Hc E).
  - discriminate.
Qed.

(** C3.  What the code does for a negative requested duration.  The
    flag value "-1" is stored as minus one second.  With it the gate is
    true in the very first round, whatever the session does: the loop is
    left in the second round with nothing captured and no call to the
    session, no interrupt having arrived, and [run] writes a header-only
    file, after "Press Ctrl-C to stop capturing" was printed.  Only the
    duration zero switches the gate off: with it, and without an
    interrupt, the loop is never left. *)
Theorem negative_duration_stops_at_once :
  DurationFlag_Set 0 (inr (F64.of_Z (-1))) = (- Second, None)
  /\ (forall duration, duration < 0 ->
        shouldStop duration (currentDuration (new_audio (override mix_format))) = true)
  /\ (forall current, shouldStop 0 current = false)
  /\ (forall env wfx bufferFrameSize fuel k s s',
        isCapturing s = true -> (forall j, interrupted env j = false) ->
        loop env wfx bufferFrameSize 0 fuel k s <> Left s')
  /\ (forall env w bufferFrameSize duration period t k,
        duration < 0 -> interrupted env k = false ->
        loop env (override w) bufferFrameSize duration 2 k
             (mkLoopState true (new_audio (override w)) period t)
        = Left (mkLoopState false (new_audio (override w)) period t))
  /\ run (steady_env 441) 2 "out.wav" (- Second)
     = Returned (Some (new_audio (override mix_format))) None
         (steady_banner ++
          [EvStart;
           EvPrintln "Start capturing loopback audio with shared-timer-driven mode";
           EvPrintln "Press Ctrl-C to stop capturing";
           EvSleep 10000000;
           EvPrintln "Stop capturing";
           EvStop;
           EvWriteFile "out.wav" (Bytes (new_audio (override mix_format)));
           EvPrintln "Successfully done"]).
Proof.
  assert (G : forall duration w, duration < 0 ->
                shouldStop duration (currentDuration (new_audio (override w))) = true).
  { intros duration w H.
    rewrite (currentDuration_zero (new_audio (override w)))
      by (rewrite new_audio_const; reflexivity).
    apply shouldStop_iff. lia. }
  split; [vm_compute; reflexivity|]. split; [intros; apply G; assumption|].
  split; [reflexivity|].
  split; [intros; apply zero_duration_unbounded; assumption|]. split.
  - intros env w B duration period t k Hd Hi.
    cbn [loop]. unfold iteration at 1.
    cbn [isCapturing negb audio]. rewrite Hi, (G duration w Hd).
    unfold iteration. cbn [isCapturing set_isCapturing negb audio capturingPeriod events].
    reflexivity.
  - vm_compute. reflexivity.
Qed.

(** ** Properties of the format override *)

(** What [setup] hands to the loop. *)
Lemma setup_Ready env duration wfx bufferFrameSize s0 :
  setup env duration = Ready wfx bufferFrameSize s0 ->
  exists w, GetMixFormat env = inr w /\ wfx = override w
            /\ audio s0 = new_audio (override w) /\ isCapturing s0 = true
            /\ files_written (events s0) = [].
Proof.
  unfold setup.
  destruct (CoInitializeEx env); [discriminate|].
  destruct (CoCreateInstance env); [discriminate|].
  destruct (GetDefaultAudioEndpoint env); [discriminate|].
  destruct (OpenPropertyStore env); [discriminate|].
  destruct (GetValue env); [discriminate|].
  destruct (Activate env); [discriminate|].
  destruct (GetMixFormat env) as [e|w]; [discriminate|].
  destruct (GetDevicePeriod env) as [e|[dp mp]]; [discriminate|].
  destruct (Initialize env (override w)); [discriminate|].
  destruct (GetBufferSize env) as [e|B]; [discriminate|].
  destruct (GetService env); [discriminate|].
  destruct (Start env); [discriminate|].
  intros H. injection H as <- <- <-. exists w.
  cbn [audio isCapturing events].
  repeat split. destruct (duration <=? 0); reflexivity.
Qed.

(** C7.  After the override the negotiated format has tag 1, 2
    channels, 44100 samples per second and 16 bits per sample, whatever
    it was before; its block alignment is bitsPerSample/8 * channels and
    its average byte rate samplesPerSec * blockAlign, computed from the
    overridden values.  The descriptor copied into [audio] has the same
    values, the container carries tag 1, and no round of the loop
    changes a format field. *)
Theorem override_fixes_profile :
  (forall w : WAVEFORMATEX,
      let wfx := override w in
      WFormatTag wfx = 1 /\ NChannels wfx = 2 /\ NSamplesPerSec wfx = 44100
      /\ WBitsPerSample wfx = 16
      /\ NBlockAlign wfx = WBitsPerSample wfx / 8 * NChannels wfx
      /\ NAvgBytesPerSec wfx = NSamplesPerSec wfx * NBlockAlign wfx)
  /\ (forall w w' : WAVEFORMATEX, override w = override w')
  /\ (forall w : WAVEFORMATEX,
        let a := new_audio (override w) in
        Channels a = 2 /\ SamplesPerSec a = 44100 /\ BitsPerSample a = 16
        /\ BlockAlign a = BitsPerSample a / 8 * Channels a
        /\ AvgBytesPerSec a = SamplesPerSec a * BlockAlign a
        /\ le_value (slice 20 22 (Bytes a)) = 1)
  /\ (forall env duration wfx bufferFrameSize s0,
        setup env duration = Ready wfx bufferFrameSize s0 ->
        exists w, GetMixFormat env = inr w /\ wfx = override w
                  /\ audio s0 = new_audio (override w))
  /\ (forall env wfx bufferFrameSize duration fuel k s,
        same_format (audio s)
          (audio (result_state (loop env wfx bufferFrameSize duration fuel k s)))).
Proof.
  split; [intros w; cbn; repeat split|].
  split; [reflexivity|].
  split; [intros w; cbn; repeat split|].
  split; [|intros; apply loop_format].
  intros env duration wfx B s0 H.
  destruct (setup_Ready _ _ _ _ _ H) as (w & E1 & E2 & E3 & _).
  exists w. repeat split; assumption.
Qed.

Lemma override_fixes_profile_witness :
  exists w, GetMixFormat (steady_env 441) = inr w
            /\ override mix_format = override w
            /\ audio steady_start = new_audio (override w).
Proof.
  destruct override_fixes_profile as (_ & _ & _ & S & _).
  apply (S (steady_env 441) 0 (override mix_format) 8820 steady_start).
  reflexivity.
Defined.

(** ** Properties of one round of the loop *)

(** C9.  A round whose poll returns no frame goes round again with
    [audio] as it was: the only thing it did is the call to
    [GetBuffer]; it recorded no sleep, no read and no release, and the
    next round follows at once. *)
Theorem empty_poll_changes_nothing env wfx bufferFrameSize duration k s p :
  isCapturing s = true ->
  interrupted env k = false ->
  shouldStop duration (currentDuration (audio s)) = false ->
  GetBuffer env k = inr p ->
  availableFrameSize p = 0 ->
  exists s',
    iteration env wfx bufferFrameSize duration k s = Again s'
    /\ audio s' = audio s
    /\ DataSize (audio s') = DataSize (audio s)
    /\ RawData (audio s') = RawData (audio s)
    /\ isCapturing s' = isCapturing s
    /\ capturingPeriod s' = capturingPeriod s
    /\ events s' = events s ++ [EvGetBuffer]
    /\ (forall fuel,
          loop env wfx bufferFrameSize duration (S fuel) k s
          = loop env wfx bufferFrameSize duration fuel (S k) s').
Proof.
  intros Hc Hi Hg Hb Ha. exists (emit EvGetBuffer s).
  pose proof (iteration_empty env wfx bufferFrameSize duration k s p Hc Hi Hg Hb Ha) as E.
  repeat split; try assumption.
  intros fuel. cbn [loop]. rewrite E. reflexivity.
Qed.

Lemma empty_poll_changes_nothing_witness :
  exists s',
    iteration (steady_env 0) (override mix_format) 8820 0 0 steady_start = Again s'
    /\ audio s' = audio steady_start
    /\ events s' = events steady_start ++ [EvGetBuffer].
Proof.
  destruct (empty_poll_changes_nothing (steady_env 0) (override mix_format) 8820 0 0
              steady_start (mkPacket 4096 0 0 0 0))
    as (s' & E & A & _ & _ & _ & _ & Ev & _); try reflexivity.
  exists s'. repeat split; assumption.
Defined.

(** In the steady session every round adds 441 frames, 1764 bytes. *)
Lemma steady_rounds (n : nat) : forall k s,
  isCapturing s = true -> is_u32 (DataSize (audio s)) ->
  exists s',
    loop (steady_env 441) (override mix_format) 8820 0 n k s = Looping s'
    /\ isCapturing s' = true
    /\ DataSize (audio s') = u32 (DataSize (audio s) + Z.of_nat n * 1764)
    /\ Z.of_nat (List.length (RawData (audio s')))
       = Z.of_nat (List.length (RawData (audio s))) + Z.of_nat n * 1764.
Proof.
  induction n as [|n IH]; intros k s Hc Hu.
  - exists s. cbn [loop]. repeat split; try assumption; try lia.
    rewrite Z.add_0_r. unfold u32. symmetry. apply Z.mod_small. exact Hu.
  - cbn [loop].
    rewrite (iteration_accumulate (steady_env 441) (override mix_format) 8820 0 k s
               (mkPacket 4096 441 0 0 0) 0) by (try reflexivity; try assumption; discriminate).
    cbv zeta.
    change (ReleaseBuffer (steady_env 441) k (availableFrameSize (mkPacket 4096 441 0 0 0)))
      with (@None error).
    change (availableFrameSize (mkPacket 4096 441 0 0 0) * NBlockAlign (override mix_format))
      with 1764.
    set (s1 := accumulated (steady_env 441) k (mkPacket 4096 441 0 0 0) 1764 8820 0
                 (NSamplesPerSec (override mix_format)) s).
    assert (H1 : isCapturing s1 = true) by exact Hc.
    assert (D1 : DataSize (audio s1) = u32 (DataSize (audio s) + 1764)) by reflexivity.
    assert (L1 : Z.of_nat (List.length (RawData (audio s1)))
                 = Z.of_nat (List.length (RawData (audio s))) + 1764).
    { unfold s1, accumulated. cbn [audio RawData set_DataSize set_RawData].
      rewrite length_app, region_length, Nat2Z.inj_add, Z2Nat.id by lia. reflexivity. }
    assert (U1 : is_u32 (DataSize (audio s1))) by (rewrite D1; apply u32_range).
    destruct (IH (S k) s1 H1 U1) as (s' & E & C & D & L).
    exists s'. split; [exact E|]. split; [exact C|]. split.
    + rewrite D, D1. unfold u32. rewrite Zplus_mod_idemp_l. f_equal. lia.
    + rewrite L, L1. lia.
Qed.





(** ** Properties of a whole run *)

(** The capture itself never writes a file. *)
Lemma capture_writes_nothing env fuel duration :
  files_written (outcome_trace (loopbackCaptureSharedTimerDriven env fuel duration)) = [].
Proof.
  unfold loopbackCaptureSharedTimerDriven.
  destruct (setup env duration) as [a e t|wfx B s0] eqn:Es.
  - cbn. revert Es. unfold setup.
    repeat match goal with
           | |- context [match ?x with _ => _ end] => destruct x
           end; intros H; inversion H; reflexivity.
  - destruct (setup_Ready _ _ _ _ _ Es) as (w & _ & _ & _ & _ & Hw).
    destruct (loop_events env wfx B duration fuel 0 s0) as (evs & Ev & Wv).
    destruct (loop env wfx B duration fuel 0 s0) as [s|s|e s];
      cbn [result_state outcome_trace] in *;
      rewrite ?files_written_app, Ev, files_written_app, Hw, Wv; reflexivity.
Qed.

(** C5.  A run writes either nothing or, once, the encoding of the
    audio of a capture that returned without error.  When the capture
    returns an error, [run] returns it and no file is written; a failing
    [GetBuffer], [GetCurrentPadding] or [ReleaseBuffer] inside the loop
    makes the capture return that error, so what was accumulated until
    then is not written anywhere. *)
Theorem no_partial_success env fuel filename duration :
  let capture := loopbackCaptureSharedTimerDriven env fuel duration in
  let r := run env fuel filename duration in
  (files_written (outcome_trace r) = []
   \/ exists a t, capture = Returned (Some a) None t
                  /\ files_written (outcome_trace r) = [(filename, Bytes a)])
  /\ (forall a e t, capture = Returned a (Some e) t ->
        files_written (outcome_trace r) = []
        /\ (filename <> ""%string -> r = Returned a (Some e) t))
  /\ (forall wfx bufferFrameSize s0 e s,
        setup env duration = Ready wfx bufferFrameSize s0 ->
        loop env wfx bufferFrameSize duration fuel 0 s0 = Aborted e s ->
        capture = Returned (Some (audio s)) (Some e) (events s))
  /\ (forall wfx bufferFrameSize k s e,
        isCapturing s = true -> interrupted env k = false ->
        shouldStop duration (currentDuration (audio s)) = false ->
        round_fails env k e ->
        forall fuel', exists s',
          loop env wfx bufferFrameSize duration (S fuel') k s = Aborted e s').
Proof.
  intros capture r.
  pose proof (capture_writes_nothing env fuel duration) as Hw. fold capture in Hw.
  assert (Hr : r = if String.eqb filename "" then Returned None None []
                   else match capture with
                        | Running t => Running t
                        | Returned a (Some e) t => Returned a (Some e) t
                        | Returned None None t => Returned None None t
                        | Returned (Some a) None t =>
                            let t := t ++ [EvWriteFile filename (Bytes a)] in
                            match WriteFile env filename (Bytes a) with
                            | Some e => Returned (Some a) (Some e) t
                            | None => Returned (Some a) None (t ++ [EvPrintln "Successfully done"])
                            end
                        end) by reflexivity.
  split; [|split; [|split]].
  - rewrite Hr. destruct (String.eqb filename ""); [left; reflexivity|].
    destruct capture as [[a|] [e|] t|t] eqn:Ec; cbn [outcome_trace] in *;
      try (left; exact Hw).
    right. exists a, t. split; [reflexivity|].
    cbv zeta. destruct (WriteFile env filename (Bytes a)); cbn [outcome_trace];
      rewrite ?files_written_app, Hw; reflexivity.
  - intros a e t Ec. rewrite Hr, Ec. rewrite Ec in Hw. cbn [outcome_trace] in Hw.
    destruct (String.eqb filename "") eqn:Ef.
    + split; [reflexivity|]. intros N. apply String.eqb_eq in Ef. contradiction.
    + destruct a; (split; [exact Hw | reflexivity]).
  - intros wfx B s0 e s Es El. unfold capture, loopbackCaptureSharedTimerDriven.
    rewrite Es, El. reflexivity.
  - intros wfx B k s e Hc Hi Hg Hf fuel'.
    destruct (round_fails_aborts env wfx B duration k s e Hc Hi Hg Hf) as (s' & E).
    exists s'. cbn [loop]. rewrite E. reflexivity.
Qed.

(** Two runs: one packet of two frames and then either an interrupt,
    which gives a file of 44 + 8 bytes, or a failing [GetBuffer], which
    gives the error and no file. *)
Lemma no_partial_success_witness :
  (exists a t,
      run (session 2 (Nat.leb 1) (fun _ => false)) 3 "out.wav" 0
      = Returned (Some a) None t
      /\ files_written t = [("out.wav"%string, Bytes a)]
      /\ List.length (Bytes a) = 52%nat)
  /\ (exists s',
        loop (session 2 (fun _ => false) (Nat.leb 1)) (override mix_format) 8820 0 1 1
             (accumulated (session 2 (fun _ => false) (Nat.leb 1)) 0
                (mkPacket 4096 2 0 0 0) 8 8820 0 44100 steady_start)
        = Aborted (Err 2290679812) s')
  /\ files_written
       (outcome_trace (run (session 2 (fun _ => false) (Nat.leb 1)) 3 "out.wav" 0)) = []
  /\ run (session 2 (fun _ => false) (Nat.leb 1)) 3 "out.wav" 0
     = loopbackCaptureSharedTimerDriven (session 2 (fun _ => false) (Nat.leb 1)) 3 0.
Proof.
  split; [|split; [|split]].
  - eexists. eexists. split; [vm_compute; reflexivity|]. split; reflexivity.
  - destruct (no_partial_success (session 2 (fun _ => false) (Nat.leb 1)) 3 "out.wav" 0)
      as (_ & _ & _ & F).
    apply (F (override mix_format) 8820 1%nat _ (Err 2290679812)); try reflexivity.
    left. reflexivity.
  - destruct (no_partial_success (session 2 (fun _ => false) (Nat.leb 1)) 3 "out.wav" 0)
      as (_ & N & _ & _).
    apply (N (Some (mkWAVEFormat 0 2 44100 176400 4 16 8
                      (region (memory (session 2 (fun _ => false) (Nat.leb 1)) 0) 4096 8)))
             (Err 2290679812)
             (events steady_start
                ++ [EvGetBuffer; EvReadRegion 4096 8; EvGetCurrentPadding;
                    EvSleep 100000000; EvReleaseBuffer 2; EvGetBuffer])).
    vm_compute. reflexivity.
  - vm_compute. reflexivity.
Defined.

(** ** The accumulator over a whole capture *)

(** C8, as stated, fails.  The steady session, started as [setup]
    starts it and never interrupted, has accumulated 4294966032 bytes at
    the top of round 2434788 and 4294967796 at the top of round 2434789,
    where [DataSize] has wrapped round to 500: it is no longer the
    length of [RawData], and it has shrunk. *)
Lemma accumulator_size_wraps :
  setup (steady_env 441) 0 = Ready (override mix_format) 8820 steady_start
  /\ exists s1 s2,
       loop (steady_env 441) (override mix_format) 8820 0 (Z.to_nat 2434788) 0 steady_start
       = Looping s1
       /\ loop (steady_env 441) (override mix_format) 8820 0 (Z.to_nat 2434789) 0 steady_start
          = Looping s2
       /\ DataSize (audio s1) = 4294966032
       /\ DataSize (audio s2) = 500
       /\ Z.of_nat (List.length (RawData (audio s2))) = 4294967796
       /\ DataSize (audio s2) <> Z.of_nat (List.length (RawData (audio s2)))
       /\ DataSize (audio s2) < DataSize (audio s1).
Proof.
  split; [reflexivity|].
  assert (Hc : isCapturing steady_start = true) by reflexivity.
  assert (Hu : is_u32 (DataSize (audio steady_start))) by (unfold is_u32; cbn; lia).
  destruct (steady_rounds (Z.to_nat 2434788) 0 steady_start Hc Hu) as (s1 & E1 & _ & D1 & _).
  destruct (steady_rounds (Z.to_nat 2434789) 0 steady_start Hc Hu) as (s2 & E2 & _ & D2 & L2).
  exists s1, s2.
  split; [exact E1|]. split; [exact E2|]. clear E1 E2.
  rewrite Z2Nat.id in D1, D2, L2 by (clear; lia).
  change (DataSize (audio steady_start)) with 0 in D1, D2.
  change (Z.of_nat (List.length (RawData (audio steady_start)))) with 0 in L2.
  change (u32 (0 + 2434788 * 1764)) with 4294966032 in D1.
  change (u32 (0 + 2434789 * 1764)) with 500 in D2.
  change (0 + 2434789 * 1764) with 4294967796 in L2.
  rewrite D1, D2, L2. clear.
  split; [reflexivity|]. split; [reflexivity|]. split; [reflexivity|].
  split; lia.
Qed.

Lemma extends_invariant s s' :
  extends s s' ->
  DataSize (audio s) = u32 (Z.of_nat (List.length (RawData (audio s)))) ->
  DataSize (audio s') = u32 (Z.of_nat (List.length (RawData (audio s'))))
  /\ (exists l, RawData (audio s') = RawData (audio s) ++ l)
  /\ (List.length (RawData (audio s)) <= List.length (RawData (audio s')))%nat
  /\ (Z.of_nat (List.length (RawData (audio s'))) < 2 ^ 32 ->
      DataSize (audio s') = Z.of_nat (List.length (RawData (audio s')))
      /\ DataSize (audio s) = Z.of_nat (List.length (RawData (audio s)))
      /\ DataSize (audio s) <= DataSize (audio s')).
Proof.
  intros [_ _ _ _ _ _ (l & R & D) _] I.
  assert (L : Z.of_nat (List.length (RawData (audio s')))
              = Z.of_nat (List.length (RawData (audio s))) + Z.of_nat (List.length l))
    by (rewrite R, length_app; lia).
  assert (I' : DataSize (audio s') = u32 (Z.of_nat (List.length (RawData (audio s'))))).
  { rewrite D, I, L. unfold u32. rewrite Zplus_mod_idemp_l. reflexivity. }
  split; [exact I'|]. split; [exists l; exact R|].
  split; [rewrite R, length_app; lia|].
  intros B. rewrite I', I. unfold u32. rewrite !Z.mod_small by lia. lia.
Qed.

(** C8, amended.  At the top of every round, and wherever the loop
    stops, [DataSize] is the length of [RawData] modulo 2^32; so the two
    are equal as long as fewer than 2^32 bytes are accumulated, and up to
    there [DataSize] never decreases.  [RawData] itself only grows: what
    was accumulated stays at the front, unchanged. *)
Theorem accumulator_invariant_mod env duration wfx bufferFrameSize s0 :
  wf_env env ->
  setup env duration = Ready wfx bufferFrameSize s0 ->
  (DataSize (audio s0) = 0 /\ RawData (audio s0) = [])
  /\ (forall n,
        let s := result_state (loop env wfx bufferFrameSize duration n 0 s0) in
        DataSize (audio s) = Z.of_nat (List.length (RawData (audio s))) mod 2 ^ 32
        /\ (Z.of_nat (List.length (RawData (audio s))) < 2 ^ 32 ->
            DataSize (audio s) = Z.of_nat (List.length (RawData (audio s)))))
  /\ (forall n1 n2 s1,
        loop env wfx bufferFrameSize duration n1 0 s0 = Looping s1 ->
        let s2 := result_state (loop env wfx bufferFrameSize duration (n1 + n2) 0 s0) in
        (exists l, RawData (audio s2) = RawData (audio s1) ++ l)
        /\ (List.length (RawData (audio s1)) <= List.length (RawData (audio s2)))%nat
        /\ (Z.of_nat (List.length (RawData (audio s2))) < 2 ^ 32 ->
            DataSize (audio s1) <= DataSize (audio s2))).
Proof.
  intros He Hs.
  destruct (setup_Ready _ _ _ _ _ Hs) as (w & _ & Ew & Ea & _ & _).
  assert (Hb : 0 <= NBlockAlign wfx) by (rewrite Ew; cbn; lia).
  assert (H0 : DataSize (audio s0) = 0 /\ RawData (audio s0) = [])
    by (rewrite Ea; split; reflexivity).
  destruct H0 as [D0 R0].
  assert (U0 : is_u32 (DataSize (audio s0))) by (rewrite D0; unfold is_u32; lia).
  assert (I0 : DataSize (audio s0) = u32 (Z.of_nat (List.length (RawData (audio s0)))))
    by (rewrite D0, R0; reflexivity).
  assert (I : forall n,
             let s := result_state (loop env wfx bufferFrameSize duration n 0 s0) in
             extends s0 s
             /\ DataSize (audio s) = u32 (Z.of_nat (List.length (RawData (audio s))))).
  { intros n s. pose proof (loop_extends env wfx bufferFrameSize duration n 0 s0 He Hb U0) as X.
    split; [exact X|]. apply (extends_invariant s0 s X I0). }
  split; [split; assumption|]. split.
  - intros n s. destruct (I n) as [X Is]. fold s in X, Is.
    split; [exact Is|]. intros B. apply (extends_invariant s0 s X I0). exact B.
  - intros n1 n2 s1 E1 s2.
    destruct (I n1) as [X1 I1]. rewrite E1 in X1, I1. cbn [result_state] in X1, I1.
    assert (X : extends s1 s2).
    { unfold s2. rewrite loop_app, E1.
      apply loop_extends; try assumption. eapply extends_is_u32. exact X1. }
    destruct (extends_invariant s1 s2 X I1) as (_ & P & L & B).
    split; [exact P|]. split; [exact L|]. intros Hlt. apply B. exact Hlt.
Qed.

Lemma accumulator_invariant_mod_witness :
  let s := result_state (loop (steady_env 441) (override mix_format) 8820 0 3 0 steady_start) in
  DataSize (audio s) = Z.of_nat (List.length (RawData (audio s))) mod 2 ^ 32
  /\ (Z.of_nat (List.length (RawData (audio s))) < 2 ^ 32 ->
      DataSize (audio s) = Z.of_nat (List.length (RawData (audio s)))).
Proof.
  assert (He : wf_env (steady_env 441)).
  { intros k p H. injection H as <-. unfold is_u32. cbn. lia. }
  destruct (accumulator_invariant_mod (steady_env 441) 0 (override mix_format) 8820
              steady_start He eq_refl) as (_ & I & _).
  exact (I 3%nat).
Defined.

(** * Further properties *)

(** ** The file name flag *)

Lemma substring_append_r (pre suf : string) :
  substring (String.length pre) (String.length suf) (pre ++ suf)%string = suf.
Proof.
  induction pre as [|c pre IH]; cbn.
  - induction suf as [|c suf IH]; cbn; [reflexivity|]. rewrite IH. reflexivity.
  - exact IH.
Qed.

Lemma length_append (a b : string) :
  String.length (a ++ b)%string = (String.length a + String.length b)%nat.
Proof. induction a as [|c a IH]; cbn; [reflexivity|]. rewrite IH. reflexivity. Qed.

Lemma substring_split (s : string) : forall n, (n <= String.length s)%nat ->
  s = (substring 0 n s ++ substring n (String.length s - n) s)%string.
Proof.
  induction s as [|c s IH]; intros n Hn.
  - cbn in Hn. assert (n = 0%nat) by lia. subst. reflexivity.
  - destruct n as [|n].
    + cbn [substring append String.length Nat.sub]. f_equal.
      clear. induction s as [|c s IH]; cbn; [reflexivity|]. f_equal. exact IH.
    + cbn [substring append String.length Nat.sub]. f_equal. apply IH. cbn in Hn. lia.
Qed.

Lemma HasSuffix_iff (s suffix : string) :
  HasSuffix s suffix = true <-> exists stem, s = (stem ++ suffix)%string.
Proof.
  unfold HasSuffix. rewrite andb_true_iff, Nat.leb_le, String.eqb_eq. split.
  - intros [Hl He].
    exists (substring 0 (String.length s - String.length suffix) s).
    rewrite (substring_split s (String.length s - String.length suffix)) at 1 by lia.
    f_equal. rewrite <- He at 3. f_equal. lia.
  - intros [stem ->]. rewrite length_append. split; [lia|].
    replace (String.length stem + String.length suffix - String.length suffix)%nat
      with (String.length stem) by lia.
    apply substring_append_r.
Qed.

(** X1.  [FilenameFlag.Set] accepts exactly the values that end in
    ".wav": it stores such a value, which is never empty, and returns no
    error; any other value, the empty one included, leaves the flag as it
    was and returns the error. *)
Theorem FilenameFlag_Set_accepts_wav (old value : string) :
  (forall stem, value = (stem ++ ".wav")%string ->
     FilenameFlag_Set old value = (value, None)
     /\ value <> ""%string /\ (4 <= String.length value)%nat)
  /\ ((forall stem, value <> (stem ++ ".wav")%string) ->
      FilenameFlag_Set old value = (old, Some ErrNotWave))
  /\ (forall v', FilenameFlag_Set old value = (v', None) ->
        v' = value /\ exists stem, value = (stem ++ ".wav")%string)
  /\ FilenameFlag_Set old "" = (old, Some ErrNotWave)
  /\ FilenameFlag_Set old ".wav" = (".wav"%string, None).
Proof.
  unfold FilenameFlag_Set.
  split; [|split; [|split; [|split; reflexivity]]].
  - intros stem E.
    assert (H : HasSuffix value ".wav" = true) by (apply HasSuffix_iff; exists stem; exact E).
    rewrite H. cbn [negb]. split; [reflexivity|].
    subst value. rewrite length_append. cbn [String.length]. split; [|lia].
    destruct stem; discriminate.
  - intros N. destruct (HasSuffix value ".wav") eqn:H; [|reflexivity].
    apply HasSuffix_iff in H. destruct H as [stem E]. exfalso. exact (N stem E).
  - intros v' E. destruct (HasSuffix value ".wav") eqn:H; cbn [negb] in E; [|discriminate].
    injection E as <-. split; [reflexivity|]. apply HasSuffix_iff. exact H.
Qed.

Lemma FilenameFlag_Set_accepts_wav_witness :
  FilenameFlag_Set "" "out.wav" = ("out.wav"%string, None)
  /\ "out.wav"%string <> ""%string /\ (4 <= String.length "out.wav")%nat.
Proof.
  apply (proj1 (FilenameFlag_Set_accepts_wav "" "out.wav") "out"%string).
  reflexivity.
Defined.

(** ** Exact results *)

Lemma shr_1_exact mrs :
  shr_r mrs = false -> shr_s mrs = false -> 0 <= shr_m mrs -> (2 | shr_m mrs) ->
  shr_r (shr_1 mrs) = false /\ shr_s (shr_1 mrs) = false.
Proof.
  destruct mrs as [m r s]. cbn [shr_r shr_s shr_m]. intros -> -> Hm [q Hq].
  destruct m as [|p|p]; [split; reflexivity| |lia].
  destruct p; cbn; try (split; reflexivity); lia.
Qed.

Lemma iter_shr_1_exact p : forall mrs,
  shr_r mrs = false -> shr_s mrs = false -> 0 <= shr_m mrs ->
  (2 ^ Zpos p | shr_m mrs) ->
  shr_r (SpecFloat.iter_pos shr_1 p mrs) = false
  /\ shr_s (SpecFloat.iter_pos shr_1 p mrs) = false.
Proof.
  assert (D : forall a b m, 0 < a -> 0 < b -> (a * b | m) -> (b | m / a)).
  { intros a b m Ha Hb [q Hq]. exists q. subst m.
    replace (q * (a * b)) with (q * b * a) by ring. rewrite Z.div_mul by lia. reflexivity. }
  assert (P : forall q, 0 < 2 ^ Zpos q) by (intros; apply Z.pow_pos_nonneg; lia).
  induction p; intros mrs Hr Hs Hm Hd; cbn [SpecFloat.iter_pos].
  - rewrite pow2_xI in Hd.
    assert (H2 : (2 | shr_m mrs)).
    { destruct Hd as [q Hq]. exists (q * (2 ^ Zpos p * 2 ^ Zpos p)). rewrite Hq. ring. }
    destruct (shr_1_exact mrs Hr Hs Hm H2) as [R1 S1].
    assert (M1 : shr_m (shr_1 mrs) = shr_m mrs / 2) by (apply shr_1_m; exact Hm).
    assert (N1 : 0 <= shr_m (shr_1 mrs)) by (rewrite M1; apply Z.div_pos; lia).
    assert (D1 : (2 ^ Zpos p * 2 ^ Zpos p | shr_m (shr_1 mrs))).
    { rewrite M1. apply D; [lia | apply Z.mul_pos_pos; apply P | exact Hd]. }
    assert (D1' : (2 ^ Zpos p | shr_m (shr_1 mrs))).
    { destruct D1 as [q Hq]. exists (q * 2 ^ Zpos p). rewrite Hq. ring. }
    destruct (IHp _ R1 S1 N1 D1') as [R2 S2].
    assert (M2 : shr_m (SpecFloat.iter_pos shr_1 p (shr_1 mrs)) = shr_m (shr_1 mrs) / 2 ^ Zpos p)
      by (apply iter_shr_1_m; exact N1).
    apply IHp; try assumption.
    + rewrite M2. apply Z.div_pos; [lia|apply P].
    + rewrite M2. apply D; [apply P | apply P | exact D1].
  - rewrite pow2_xO in Hd.
    assert (D1' : (2 ^ Zpos p | shr_m mrs)).
    { destruct Hd as [q Hq]. exists (q * 2 ^ Zpos p). rewrite Hq. ring. }
    destruct (IHp _ Hr Hs Hm D1') as [R2 S2].
    assert (M2 : shr_m (SpecFloat.iter_pos shr_1 p mrs) = shr_m mrs / 2 ^ Zpos p)
      by (apply iter_shr_1_m; exact Hm).
    apply IHp; try assumption.
    + rewrite M2. apply Z.div_pos; [lia|apply P].
    + rewrite M2. apply D; [apply P | apply P | exact Hd].
  - apply shr_1_exact; try assumption.
Qed.

(** Rounding a mantissa whose low bits are all zero cuts them off and
    changes nothing else. *)
Lemma binary_round_aux_exact m e k :
  0 < m -> Zdigits2 m = k -> 53 <= k ->
  -1074 <= e + k - 53 -> e + k - 53 <= 971 ->
  (2 ^ (k - 53) | m) ->
  exists t, Zpos t = m / 2 ^ (k - 53)
    /\ binary_round_aux 53 1024 false m e loc_Exact = S754_finite false t (e + k - 53).
Proof.
  intros Hm Hk H53 Hmin Hmax Hd.
  pose proof (div_pow2_normal m k H53 (Zdigits2_pos_bounds m k Hm Hk)) as Ht.
  set (t := m / 2 ^ (k - 53)) in *.
  assert (E1 : shr_fexp 53 1024 m e loc_Exact
               = (Build_shr_record t false false, e + k - 53)).
  { unfold shr_fexp. rewrite Hk.
    replace (fexp 53 1024 (k + e) - e) with (k - 53) by (unfold fexp, emin; lia).
    cbn [shr_record_of_loc].
    destruct (k - 53) as [|p|p] eqn:E; try lia.
    - cbn [shr]. unfold t. rewrite Z.pow_0_r, Z.div_1_r. f_equal. lia.
    - cbn [shr].
      pose proof (iter_shr_1_m p (Build_shr_record m false false) ltac:(cbn; lia)) as M.
      destruct (iter_shr_1_exact p (Build_shr_record m false false)
                  eq_refl eq_refl ltac:(cbn; lia) Hd) as [R S].
      destruct (SpecFloat.iter_pos shr_1 p (Build_shr_record m false false)) as [m' r' s'].
      cbn [shr_m shr_r shr_s] in *. subst. f_equal. lia. }
  unfold binary_round_aux. rewrite E1. cbn [shr_m loc_of_shr_record round_nearest_even].
  assert (Dt : Zdigits2 t = 53) by (apply Zdigits2_unique; cbn in *; lia).
  destruct (shr_fexp_normal t (e + k - 53) loc_Exact 53) as (mrs2 & E2 & Em2 & Ex2);
    try lia.
  replace (e + k - 53 + 53 - 53) with (e + k - 53) in E2 by lia.
  rewrite E2, Em2. change (2 ^ (53 - 53)) with 1. rewrite Z.div_1_r.
  destruct t as [|pt|pt] eqn:Et; try (cbn in *; lia).
  replace (e + k - 53 <=? 1024 - 53) with true by (symmetry; apply Z.leb_le; lia).
  exists pt. split; reflexivity.
Qed.

(** The mantissa of a converted integer is the integer, shifted. *)
Lemma of_Z_mantissa d :
  0 < d < 2 ^ 53 ->
  exists m j,
    F64.of_Z d = S754_finite false m (- j)
    /\ normal m /\ 0 <= j <= 52 /\ Zpos m = d * 2 ^ j.
Proof.
  intros Hd. destruct (of_Z_normal d Hd) as (m & e & E & N & R & V).
  unfold normal in N.
  assert (He : e <= 0).
  { destruct (Z_le_gt_dec e 0) as [|G]; [assumption|exfalso].
    assert (e = 1) by lia. subst e. unfold F2R in V.
    rewrite (bpow_IZR 1), <- mult_IZR in V by lia. apply eq_IZR in V.
    change (2 ^ 1) with 2 in V. lia. }
  exists m, (- e). replace (- - e) with e by lia.
  split; [exact E|]. split; [exact N|]. split; [lia|].
  apply eq_IZR. rewrite mult_IZR, <- bpow_IZR by lia.
  unfold F2R in V. rewrite <- V, Rmult_assoc.
  replace (bpow e * bpow (- e))%R with 1%R; [ring|].
  rewrite <- bpow_add. replace (e + - e) with 0 by lia. reflexivity.
Qed.

(** The product of two integers, computed in [float64] and converted
    back, is exact as long as it is below 2^53. *)
Lemma mul_of_Z_exact a b :
  0 < a -> 0 < b -> a * b < 2 ^ 53 ->
  F64.to_int64 (F64.mul (F64.of_Z a) (F64.of_Z b)) = a * b.
Proof.
  intros Ha Hb Hab.
  assert (Ha' : a < 2 ^ 53) by nia. assert (Hb' : b < 2 ^ 53) by nia.
  destruct (of_Z_mantissa a ltac:(lia)) as (ma & ja & Ea & Na & Ja & Ma).
  destruct (of_Z_mantissa b ltac:(lia)) as (mb & jb & Eb & Nb & Jb & Mb).
  rewrite Ea, Eb. cbv [F64.mul F64.prec F64.emax]. unfold SFmul. cbn [xorb].
  unfold normal in *.
  set (m := Zpos (ma * mb)).
  set (j := ja + jb).
  assert (Em : m = a * b * 2 ^ j).
  { unfold m, j. rewrite Pos2Z.inj_mul, Ma, Mb, Z.pow_add_r by lia. ring. }
  assert (Hm : 2 ^ 104 <= m < 2 ^ 106).
  { unfold m. rewrite Pos2Z.inj_mul.
    change (2 ^ 104) with (2 ^ 52 * 2 ^ 52). change (2 ^ 106) with (2 ^ 53 * 2 ^ 53).
    split; [apply Z.mul_le_mono_nonneg | apply Z.mul_lt_mono_nonneg]; lia. }
  destruct (Zdigits2_range m 104 106 (Zdigits2 m) ltac:(lia) Hm eq_refl) as [K1 K2].
  set (k := Zdigits2 m) in *.
  assert (Pj : 0 < 2 ^ j) by (apply Z.pow_pos_nonneg; lia).
  assert (Kj : k - 53 <= j).
  { destruct (Z_le_gt_dec (k - 53) j) as [|G]; [assumption|exfalso].
    pose proof (Zdigits2_pos_bounds m k ltac:(lia) eq_refl) as [Lo _].
    assert (2 ^ (53 + j) <= 2 ^ (k - 1)) by (apply Z.pow_le_mono_r; lia).
    rewrite Z.pow_add_r in H by lia. nia. }
  set (c := j - (k - 53)).
  assert (Ej : 2 ^ j = 2 ^ c * 2 ^ (k - 53))
    by (unfold c; rewrite <- Z.pow_add_r by lia; f_equal; lia).
  assert (Pk : 0 < 2 ^ (k - 53)) by (apply Z.pow_pos_nonneg; lia).
  assert (Hd : (2 ^ (k - 53) | m)).
  { exists (a * b * 2 ^ c). rewrite Em, Ej. ring. }
  replace (- ja + - jb) with (- j) by (unfold j; lia).
  destruct (binary_round_aux_exact m (- j) k ltac:(lia) eq_refl ltac:(lia)
              ltac:(lia) ltac:(lia) Hd) as (t & Et & Er).
  rewrite Er.
  assert (Et' : Zpos t = a * b * 2 ^ c).
  { rewrite Et, Em, Ej.
    replace (a * b * (2 ^ c * 2 ^ (k - 53))) with (a * b * 2 ^ c * 2 ^ (k - 53)) by ring.
    apply Z.div_mul. lia. }
  assert (Tr : F64.trunc (S754_finite false t (- j + k - 53)) = a * b).
  { unfold F64.trunc. replace (- j + k - 53) with (- c) by (unfold c; lia).
    destruct c as [|pc|pc] eqn:Ec; try lia.
    - cbn [Z.opp]. rewrite Z.shiftl_0_r, Et'. cbn. lia.
    - cbn [Z.opp]. rewrite Z.shiftr_div_pow2, Et' by lia. apply Z.div_mul.
      pose proof (Z.pow_pos_nonneg 2 (Zpos pc)). lia. }
  unfold F64.to_int64. rewrite Tr. cbn [F64.is_finite andb].
  replace (- 2 ^ 63 <=? a * b) with true by (symmetry; apply Z.leb_le; lia).
  replace (a * b <? 2 ^ 63) with true by (symmetry; apply Z.ltb_lt; lia).
  reflexivity.
Qed.

(** X2.  For a whole number of seconds up to 9007199 the value
    [DurationFlag.Set] stores is exactly that many times 10^9
    nanoseconds: the [float64] product loses nothing.  When the parser
    fails the flag keeps its value and the parser's error is returned. *)
Theorem DurationFlag_Set_whole_seconds (old : Duration) :
  (forall n, 0 <= n <= 9007199 ->
     DurationFlag_Set old (inr (F64.of_Z n)) = (n * Second, None))
  /\ (forall e, DurationFlag_Set old (inl e) = (old, Some e)).
Proof.
  split; [|reflexivity].
  intros n Hn. unfold DurationFlag_Set. f_equal.
  destruct (Z.eq_dec n 0) as [->|Nz]; [vm_compute; reflexivity|].
  apply mul_of_Z_exact; unfold Second; lia.
Qed.

Lemma DurationFlag_Set_whole_seconds_witness :
  DurationFlag_Set 0 (inr (F64.of_Z 90)) = (90 * Second, None).
Proof.
  apply (proj1 (DurationFlag_Set_whole_seconds 0) 90). lia.
Defined.

(** ** More about the loop *)

(** For a positive requested duration the gate cannot fire before that
    much audio is there, and must fire three nanoseconds later. *)
Lemma gate_general (a : WAVEFormat) (duration : Duration) :
  target_profile a -> is_u32 (DataSize a) -> 0 < duration ->
  (shouldStop duration (currentDuration a) = true ->
     176400 * duration < DataSize a * 1000000000)
  /\ (176400 * (duration + 3) <= DataSize a * 1000000000 ->
      shouldStop duration (currentDuration a) = true).
Proof.
  intros Hp Hu Hd.
  destruct (currentDuration_near a Hp Hu) as [Lo Hi].
  rewrite shouldStop_iff. split.
  - intros [_ G]. nia.
  - intros H. split; [lia|]. nia.
Qed.

(** X3.  For every positive requested duration, in the target profile:
    when the gate fires, strictly more audio than requested is
    accumulated ([DataSize / 176400] s exceeds the duration), and it
    fires as soon as the accumulated audio exceeds the request by three
    nanoseconds, less than one byte. *)
Theorem gate_brackets_requested_duration (a : WAVEFormat) (duration : Duration) :
  target_profile a -> is_u32 (DataSize a) -> 0 < duration ->
  (shouldStop duration (currentDuration a) = true ->
     176400 * duration < DataSize a * 1000000000)
  /\ (176400 * (duration + 3) <= DataSize a * 1000000000 ->
      shouldStop duration (currentDuration a) = true).
Proof. exact (gate_general a duration). Qed.

Lemma gate_brackets_requested_duration_witness :
  (shouldStop 20000000 (currentDuration (mkWAVEFormat 0 2 44100 176400 4 16 3528 [])) = true ->
     176400 * 20000000 < 3528 * 1000000000)
  /\ (176400 * (20000000 + 3) <= 3528 * 1000000000 ->
      shouldStop 20000000 (currentDuration (mkWAVEFormat 0 2 44100 176400 4 16 3528 [])) = true).
Proof.
  apply (gate_brackets_requested_duration (mkWAVEFormat 0 2 44100 176400 4 16 3528 []) 20000000).
  - unfold target_profile. cbn. repeat split.
  - unfold is_u32. cbn. lia.
  - lia.
Defined.

(** X4.  An interrupt seen at the top of a round ends the capture
    within that round and the next: the round makes no call to the
    session, whatever the gate says, prints "Interrupted by SIGINT" and
    leaves [audio] as it is, and the following round leaves the loop. *)
Theorem interrupt_stops_within_one_round env wfx bufferFrameSize duration k s fuel :
  isCapturing s = true ->
  interrupted env k = true ->
  let s' := set_isCapturing false (emit (EvPrintln "Interrupted by SIGINT") s) in
  iteration env wfx bufferFrameSize duration k s = Again s'
  /\ loop env wfx bufferFrameSize duration (S (S fuel)) k s = Left s'
  /\ audio s' = audio s
  /\ events s' = events s ++ [EvPrintln "Interrupted by SIGINT"].
Proof.
  intros Hc Hi s'.
  assert (E : iteration env wfx bufferFrameSize duration k s = Again s').
  { unfold iteration. rewrite Hc, Hi. reflexivity. }
  split; [exact E|]. split; [|split; reflexivity].
  cbn [loop]. rewrite E. unfold iteration. reflexivity.
Qed.

Lemma interrupt_stops_within_one_round_witness :
  loop (session 441 (Nat.leb 1) (fun _ => false)) (override mix_format) 8820 0 5 1 steady_start
  = Left (set_isCapturing false (emit (EvPrintln "Interrupted by SIGINT") steady_start)).
Proof.
  apply (interrupt_stops_within_one_round
           (session 441 (Nat.leb 1) (fun _ => false)) (override mix_format) 8820 0 1
           steady_start 3); reflexivity.
Defined.

(** X5.  While every poll returns no frame, and neither the gate nor
    an interrupt stops it, the loop goes on for ever: after any number of
    rounds it is still running with [audio] unchanged, having done
    nothing but that many [GetBuffer] calls, with no sleep in between. *)
Theorem starved_loop_spins env wfx bufferFrameSize duration fuel : forall k s,
  isCapturing s = true ->
  shouldStop duration (currentDuration (audio s)) = false ->
  starved env k ->
  loop env wfx bufferFrameSize duration fuel k s
  = Looping (mkLoopState true (audio s) (capturingPeriod s)
               (events s ++ repeat EvGetBuffer fuel)).
Proof.
  induction fuel as [|fuel IH]; intros k s Hc Hg Hs.
  - cbn. rewrite app_nil_r. destruct s; cbn in *. subst. reflexivity.
  - destruct (Hs k (Nat.le_refl k)) as (Hi & p & Hb & Ha).
    cbn [loop]. rewrite (iteration_empty env wfx bufferFrameSize duration k s p) by assumption.
    rewrite IH.
    + cbn [emit audio capturingPeriod events]. rewrite <- app_assoc. reflexivity.
    + exact Hc.
    + exact Hg.
    + intros j Hj. apply Hs. lia.
Qed.

Lemma starved_loop_spins_witness :
  loop (steady_env 0) (override mix_format) 8820 0 4 0 steady_start
  = Looping (mkLoopState true (audio steady_start) (capturingPeriod steady_start)
               (events steady_start ++ repeat EvGetBuffer 4)).
Proof.
  apply (starved_loop_spins (steady_env 0) (override mix_format) 8820 0 4 0 steady_start).
  - reflexivity.
  - reflexivity.
  - intros j _. split; [reflexivity|]. exists (mkPacket 4096 0 0 0 0). split; reflexivity.
Defined.

(** When the gate fires the loop is left in the next round. *)
Lemma gate_fires_leaves env wfx bufferFrameSize duration k s fuel :
  isCapturing s = true -> interrupted env k = false ->
  shouldStop duration (currentDuration (audio s)) = true ->
  loop env wfx bufferFrameSize duration (S (S fuel)) k s = Left (set_isCapturing false s).
Proof.
  intros Hc Hi G. cbn [loop]. unfold iteration at 1. rewrite Hc, Hi, G. cbn [negb].
  unfold iteration. reflexivity.
Qed.

Lemma flowing_rounds env w bufferFrameSize duration maxFrames (fuel : nat) : forall k s,
  0 < duration ->
  176400 * (duration + 3) + 4 * maxFrames * 1000000000 <= 4294967295 * 1000000000 ->
  flowing env maxFrames k ->
  isCapturing s = true ->
  target_profile (audio s) ->
  0 <= DataSize (audio s) ->
  DataSize (audio s) * 1000000000
    < 176400 * (duration + 3) + 4 * maxFrames * 1000000000 ->
  176400 * (duration + 3)
    <= DataSize (audio s) * 1000000000 + 4000000000 * Z.of_nat fuel ->
  exists s',
    loop env (override w) bufferFrameSize duration (fuel + 2) k s = Left s'
    /\ isCapturing s' = false
    /\ target_profile (audio s')
    /\ shouldStop duration (currentDuration (audio s')) = true
    /\ DataSize (audio s') * 1000000000
         < 176400 * (duration + 3) + 4 * maxFrames * 1000000000
    /\ DataSize (audio s') - DataSize (audio s)
       = Z.of_nat (List.length (RawData (audio s')))
         - Z.of_nat (List.length (RawData (audio s))).
Proof.
  induction fuel as [|fuel IH]; intros k s Hd Hw Hf Hc Hp H0 Hub Hfuel.
  - (* the size is already large enough: the gate fires now *)
    assert (Hu : is_u32 (DataSize (audio s))) by (unfold is_u32; lia).
    assert (G : shouldStop duration (currentDuration (audio s)) = true).
    { apply (gate_general (audio s) duration Hp Hu Hd). lia. }
    destruct (Hf k (Nat.le_refl k)) as (Hi & _).
    exists (set_isCapturing false s).
    split; [apply gate_fires_leaves; assumption|]. cbn [set_isCapturing isCapturing audio]. split; [reflexivity|]. split; [exact Hp|].
    split; [exact G|]. split; lia.
  - assert (Hu : is_u32 (DataSize (audio s))) by (unfold is_u32; lia).
    destruct (Hf k (Nat.le_refl k)) as (Hi & (p & Hb & Hn) & (padding & Hpad) & Hrel).
    destruct (shouldStop duration (currentDuration (audio s))) eqn:G.
    + exists (set_isCapturing false s).
      replace (S fuel + 2)%nat with (S (S (S fuel))) by lia.
      split; [apply gate_fires_leaves; assumption|].
      cbn [set_isCapturing isCapturing audio]. split; [reflexivity|]. split; [exact Hp|].
      split; [exact G|]. split; lia.
    + assert (Hlow : DataSize (audio s) * 1000000000 < 176400 * (duration + 3)).
      { destruct (Z_lt_le_dec (DataSize (audio s) * 1000000000) (176400 * (duration + 3)))
          as [|Hge]; [assumption|exfalso].
        pose proof (proj2 (gate_general (audio s) duration Hp Hu Hd) Hge).
        congruence. }
      replace (S fuel + 2)%nat with (S (fuel + 2)) by lia. cbn [loop].
      rewrite (iteration_accumulate env (override w) bufferFrameSize duration k s p padding)
        by (try assumption; lia).
      cbv zeta. rewrite Hrel.
      change (NBlockAlign (override w)) with 4.
      set (s1 := accumulated env k p (availableFrameSize p * 4) bufferFrameSize padding
                   (NSamplesPerSec (override w)) s).
      assert (D1 : DataSize (audio s1) = DataSize (audio s) + availableFrameSize p * 4).
      { unfold s1, accumulated. cbn [audio DataSize set_DataSize].
        unfold u32. apply Z.mod_small. lia. }
      assert (L1 : Z.of_nat (List.length (RawData (audio s1)))
                   = Z.of_nat (List.length (RawData (audio s))) + availableFrameSize p * 4).
      { unfold s1, accumulated. cbn [audio RawData set_DataSize set_RawData].
        rewrite length_app, region_length, Nat2Z.inj_add, Z2Nat.id by lia. reflexivity. }
      assert (P1 : target_profile (audio s1)) by exact Hp.
      destruct (IH (S k) s1) as (s' & E & C & P & G' & U & L); try assumption; try lia.
      * intros j Hj. apply Hf. lia.
      * exists s'. split; [exact E|]. split; [exact C|]. split; [exact P|].
        split; [exact G'|]. split; [exact U|]. lia.
Qed.

(** ** Reading the trace of a capture *)

Lemma bytes_read_app t1 t2 : bytes_read (t1 ++ t2) = bytes_read t1 + bytes_read t2.
Proof. induction t1 as [|ev t1 IH]; [reflexivity|]. destruct ev; cbn; rewrite ?IH; lia. Qed.

Lemma frames_released_app t1 t2 :
  frames_released (t1 ++ t2) = frames_released t1 + frames_released t2.
Proof. induction t1 as [|ev t1 IH]; [reflexivity|]. destruct ev; cbn; rewrite ?IH; lia. Qed.

Lemma polls_app t1 t2 : polls (t1 ++ t2) = (polls t1 + polls t2)%nat.
Proof. induction t1 as [|ev t1 IH]; [reflexivity|]. destruct ev; cbn; rewrite ?IH; lia. Qed.

Lemma releases_app t1 t2 : releases (t1 ++ t2) = (releases t1 + releases t2)%nat.
Proof. induction t1 as [|ev t1 IH]; [reflexivity|]. destruct ev; cbn; rewrite ?IH; lia. Qed.

Lemma accounts_nil ba : accounts ba [] 0 true.
Proof.
  split; cbn; try reflexivity; try lia; [constructor | exists 0; lia].
Qed.

Lemma accounts_app ba e1 e2 d1 d2 b :
  accounts ba e1 d1 true -> accounts ba e2 d2 b -> accounts ba (e1 ++ e2) (d1 + d2) b.
Proof.
  intros [F1 B1 D1 P1 L1] [F2 B2 D2 P2 L2]. split.
  - apply Forall_app. split; assumption.
  - rewrite bytes_read_app. lia.
  - rewrite bytes_read_app. apply Z.divide_add_r; assumption.
  - rewrite releases_app, polls_app. lia.
  - intros H. rewrite bytes_read_app, frames_released_app, (L1 eq_refl), (L2 H). ring.
Qed.

Section Accounting.

Variable env : Env.
Variable wfx : WAVEFORMATEX.
Variable bufferFrameSize : Z.
Variable duration : Duration.
Hypothesis env_wf : wf_env env.
Hypothesis blockAlign_nonneg : 0 <= NBlockAlign wfx.

Lemma iteration_accounts k s :
  let r := iteration env wfx bufferFrameSize duration k s in
  exists evs,
    events (step_state r) = events s ++ evs
    /\ accounts (NBlockAlign wfx) evs
         (Z.of_nat (List.length (RawData (audio (step_state r))))
          - Z.of_nat (List.length (RawData (audio s))))
         (step_balanced r).
Proof.
  assert (Simple : forall ev, loop_event ev ->
            bytes_read [ev] = 0 -> (releases [ev] <= polls [ev])%nat ->
            frames_released [ev] = 0 ->
            forall b, accounts (NBlockAlign wfx) [ev] 0 b).
  { intros ev L B P Fr b. split; try assumption.
    - constructor; [exact L|constructor].
    - symmetry; exact B.
    - rewrite B. exists 0. lia.
    - intros _. rewrite B, Fr. lia. }
  cbv zeta. unfold iteration.
  destruct (isCapturing s); cbn [negb step_state].
  2:{ exists []. rewrite app_nil_r, Z.sub_diag. split; [reflexivity|apply accounts_nil]. }
  destruct (interrupted env k).
  { eexists. cbn [step_state set_isCapturing emit events audio]. split; [reflexivity|].
    rewrite Z.sub_diag. apply Simple; cbn; try reflexivity; lia. }
  destruct (shouldStop duration (currentDuration (audio s))).
  { exists []. cbn [step_state set_isCapturing events audio].
    rewrite app_nil_r, Z.sub_diag. split; [reflexivity|apply accounts_nil]. }
  destruct (GetBuffer env k) as [e|p] eqn:Hb.
  { eexists. cbn [step_state emit events audio]. split; [reflexivity|].
    rewrite Z.sub_diag. apply Simple; cbn; try reflexivity; lia. }
  destruct (availableFrameSize p =? 0).
  { eexists. cbn [step_state emit events audio]. split; [reflexivity|].
    rewrite Z.sub_diag. apply Simple; cbn; try reflexivity; lia. }
  pose proof (env_wf k p Hb) as Hr. unfold is_u32 in Hr.
  assert (Hlim : 0 <= availableFrameSize p * NBlockAlign wfx)
    by (apply Z.mul_nonneg_nonneg; lia).
  cbv zeta.
  destruct (GetCurrentPadding env k) as [e|padding].
  { eexists. cbn [step_state emit set_audio events audio RawData set_RawData set_DataSize].
    rewrite <- !app_assoc. split; [reflexivity|].
    rewrite copy_loop_region, length_app, region_length, Nat2Z.inj_add, Z2Nat.id by exact Hlim.
    split; cbn [app bytes_read frames_released polls releases step_balanced].
    - repeat constructor.
    - lia.
    - exists (availableFrameSize p). lia.
    - lia.
    - discriminate. }
  assert (A : forall b,
    accounts (NBlockAlign wfx)
      [EvGetBuffer; EvReadRegion (data p) (availableFrameSize p * NBlockAlign wfx);
       EvGetCurrentPadding;
       EvSleep (Z.quot (nextPeriod bufferFrameSize padding (NSamplesPerSec wfx)) 2);
       EvReleaseBuffer (availableFrameSize p)]
      (availableFrameSize p * NBlockAlign wfx) b).
  { intros b. split; cbn [bytes_read frames_released polls releases].
    - repeat constructor.
    - lia.
    - exists (availableFrameSize p). lia.
    - lia.
    - intros _. lia. }
  destruct (ReleaseBuffer env k (availableFrameSize p));
    eexists;
    cbn [step_state emit set_audio set_capturingPeriod events audio capturingPeriod
         RawData set_RawData set_DataSize];
    rewrite <- !app_assoc;
    (split; [reflexivity|]);
    rewrite copy_loop_region, length_app, region_length, Nat2Z.inj_add, Z2Nat.id by exact Hlim;
    replace (Z.of_nat (List.length (RawData (audio s)))
             + availableFrameSize p * NBlockAlign wfx
             - Z.of_nat (List.length (RawData (audio s))))
      with (availableFrameSize p * NBlockAlign wfx) by lia;
    apply A.
Qed.

Lemma loop_accounts fuel : forall k s,
  let r := loop env wfx bufferFrameSize duration fuel k s in
  exists evs,
    events (result_state r) = events s ++ evs
    /\ accounts (NBlockAlign wfx) evs
         (Z.of_nat (List.length (RawData (audio (result_state r))))
          - Z.of_nat (List.length (RawData (audio s))))
         (result_balanced r).
Proof.
  induction fuel as [|fuel IH]; intros k s; cbn [loop]; cbv zeta.
  - exists []. cbn [result_state]. rewrite app_nil_r, Z.sub_diag.
    split; [reflexivity|apply accounts_nil].
  - destruct (iteration_accounts k s) as (e1 & E1 & A1). cbv zeta in A1.
    destruct (iteration env wfx bufferFrameSize duration k s) as [s1|s1|e s1];
      cbn [step_state step_balanced result_state result_balanced] in *.
    + destruct (IH (S k) s1) as (e2 & E2 & A2). cbv zeta in A2.
      exists (e1 ++ e2). rewrite E2, E1, app_assoc. split; [reflexivity|].
      match goal with |- accounts _ _ ?d _ =>
        replace d with
          ((Z.of_nat (List.length (RawData (audio s1)))
            - Z.of_nat (List.length (RawData (audio s))))
           + (Z.of_nat (List.length
                (RawData (audio (result_state
                   (loop env wfx bufferFrameSize duration fuel (S k) s1)))))
              - Z.of_nat (List.length (RawData (audio s1))))) by lia
      end.
      apply accounts_app; assumption.
    + exists e1. split; assumption.
    + exists e1. split; assumption.
Qed.

End Accounting.

Lemma steady_wf frames : 0 <= frames < 2 ^ 32 -> forall sigint broken,
  wf_env (session frames sigint broken).
Proof.
  intros H sigint broken k p. cbn. destruct (broken k); [discriminate|].
  intros E. injection E as <-. exact H.
Qed.

(** X7.  The events of any number of rounds account for the data: the
    loop records only its own six kinds of events, [RawData] grows by
    the sum of the sizes of the regions read, which is a whole number of
    frames, there are never more releases than polls, and unless a call
    failed every frame read was handed back with [ReleaseBuffer]. *)
Theorem trace_accounts_for_data env wfx bufferFrameSize duration fuel k s :
  wf_env env -> 0 <= NBlockAlign wfx ->
  let r := loop env wfx bufferFrameSize duration fuel k s in
  exists evs,
    events (result_state r) = events s ++ evs
    /\ Forall loop_event evs
    /\ Z.of_nat (List.length (RawData (audio (result_state r))))
       = Z.of_nat (List.length (RawData (audio s))) + bytes_read evs
    /\ (NBlockAlign wfx | bytes_read evs)
    /\ (releases evs <= polls evs)%nat
    /\ (result_balanced r = true ->
        bytes_read evs = NBlockAlign wfx * frames_released evs).
Proof.
  intros He Hb r.
  destruct (loop_accounts env wfx bufferFrameSize duration He Hb fuel k s)
    as (evs & E & [F B D P L]).
  exists evs. fold r in E, B, L |- *.
  split; [exact E|]. split; [exact F|]. split; [lia|]. split; [exact D|].
  split; [exact P|exact L].
Qed.

Lemma trace_accounts_for_data_witness :
  let r := loop (steady_env 441) (override mix_format) 8820 0 3 0 steady_start in
  exists evs,
    events (result_state r) = events steady_start ++ evs
    /\ Forall loop_event evs
    /\ Z.of_nat (List.length (RawData (audio (result_state r))))
       = Z.of_nat (List.length (RawData (audio steady_start))) + bytes_read evs
    /\ (NBlockAlign (override mix_format) | bytes_read evs)
    /\ (releases evs <= polls evs)%nat
    /\ (result_balanced r = true ->
        bytes_read evs = NBlockAlign (override mix_format) * frames_released evs).
Proof.
  apply (trace_accounts_for_data (steady_env 441) (override mix_format) 8820 0 3 0 steady_start).
  - apply steady_wf. lia.
  - cbn. lia.
Defined.

Lemma loop_event_not_Stop evs : Forall loop_event evs -> ~ In EvStop evs.
Proof.
  intros F H. rewrite Forall_forall in F. exact (F _ H).
Qed.

Lemma setup_events env duration wfx bufferFrameSize s0 :
  setup env duration = Ready wfx bufferFrameSize s0 ->
  exists pre t, events s0 = pre ++ EvStart :: t /\ Forall is_output pre
                /\ ~ In EvStop t /\ ~ In EvStart t /\ ~ In EvGetBuffer t.
Proof.
  unfold setup.
  destruct (CoInitializeEx env); [discriminate|].
  destruct (CoCreateInstance env); [discriminate|].
  destruct (GetDefaultAudioEndpoint env); [discriminate|].
  destruct (OpenPropertyStore env); [discriminate|].
  destruct (GetValue env) as [e|name]; [discriminate|].
  destruct (Activate env); [discriminate|].
  destruct (GetMixFormat env) as [e|w]; [discriminate|].
  destruct (GetDevicePeriod env) as [e|[dp mp]]; [discriminate|].
  destruct (Initialize env (override w)); [discriminate|].
  destruct (GetBufferSize env) as [e|B]; [discriminate|].
  destruct (GetService env); [discriminate|].
  destruct (Start env); [discriminate|].
  intros H. injection H as <- <- <-. cbn [events].
  exists [EvPrintf ("Capturing what you hear from: %s" ++ LF) [ArgString name];
          EvPrintln "--------";
          EvPrintf ("Format: PCM %d bit signed integer" ++ LF)
                   [ArgInt (WBitsPerSample (override w))];
          EvPrintf ("Rate: %d Hz" ++ LF) [ArgInt (NSamplesPerSec (override w))];
          EvPrintf ("Channels: %d" ++ LF) [ArgInt (NChannels (override w))];
          EvPrintln "--------";
          EvPrintf ("Default capturing period: %d ms" ++ LF)
                   [ArgInt (Z.quot (i64 (dp * 100)) Millisecond)];
          EvPrintf ("Allocated buffer size: %d" ++ LF) [ArgInt B]].
  exists (EvPrintln "Start capturing loopback audio with shared-timer-driven mode"
          :: println_if (duration <=? 0) "Press Ctrl-C to stop capturing"
          ++ [EvSleep (i64 (dp * 100))]).
  split; [reflexivity|]. split.
  - repeat constructor.
  - destruct (duration <=? 0); cbn; intuition discriminate.
Qed.

Lemma is_output_not_Stop pre : Forall is_output pre -> ~ In EvStop pre.
Proof.
  intros F H. rewrite Forall_forall in F. exact (F _ H).
Qed.

(** X8.  The session is started once and stopped only after the loop
    was left in the normal way: when a call inside the loop fails the
    function returns that error with the accumulated audio and without
    ever calling [Stop]; when the loop is left, "Stop capturing" and
    [Stop] come last and the result of [Stop] is the error returned. *)
Theorem session_stopped_only_after_normal_exit env fuel duration wfx bufferFrameSize s0 :
  wf_env env ->
  setup env duration = Ready wfx bufferFrameSize s0 ->
  match loop env wfx bufferFrameSize duration fuel 0 s0 with
  | Aborted e s =>
      loopbackCaptureSharedTimerDriven env fuel duration
      = Returned (Some (audio s)) (Some e) (events s)
      /\ In EvStart (events s) /\ ~ In EvStop (events s)
  | Left s =>
      loopbackCaptureSharedTimerDriven env fuel duration
      = Returned (Some (audio s)) (Stop env)
          (events s ++ [EvPrintln "Stop capturing"; EvStop])
      /\ In EvStart (events s) /\ ~ In EvStop (events s)
  | Looping s =>
      loopbackCaptureSharedTimerDriven env fuel duration = Running (events s)
      /\ In EvStart (events s) /\ ~ In EvStop (events s)
  end.
Proof.
  intros He Hs.
  destruct (setup_Ready _ _ _ _ _ Hs) as (w & _ & Ew & _).
  assert (Hb : 0 <= NBlockAlign wfx) by (rewrite Ew; cbn; lia).
  destruct (setup_events _ _ _ _ _ Hs) as (pre & t0 & E0 & P0 & N0 & _).
  pose proof (is_output_not_Stop pre P0) as NP.
  destruct (loop_accounts env wfx bufferFrameSize duration He Hb fuel 0 s0)
    as (evs & E & [F _ _ _ _]).
  pose proof (loop_event_not_Stop evs F) as NS.
  unfold loopbackCaptureSharedTimerDriven. rewrite Hs.
  destruct (loop env wfx bufferFrameSize duration fuel 0 s0) as [s|s|e s];
    cbn [result_state] in E; rewrite E, E0;
    (split; [reflexivity|]);
    (split; [apply in_or_app; left; apply in_or_app; right; left; reflexivity|]);
    intros H; apply in_app_or in H; destruct H as [H|H]; try tauto;
    apply in_app_or in H; destruct H as [H|[H|H]]; try discriminate; tauto.
Qed.

Lemma session_stopped_only_after_normal_exit_witness :
  match loop (session 2 (fun _ => false) (Nat.leb 1)) (override mix_format) 8820 0 3 0
             steady_start with
  | Aborted e s =>
      loopbackCaptureSharedTimerDriven (session 2 (fun _ => false) (Nat.leb 1)) 3 0
      = Returned (Some (audio s)) (Some e) (events s)
      /\ In EvStart (events s) /\ ~ In EvStop (events s)
  | Left s =>
      loopbackCaptureSharedTimerDriven (session 2 (fun _ => false) (Nat.leb 1)) 3 0
      = Returned (Some (audio s)) (Stop (session 2 (fun _ => false) (Nat.leb 1)))
          (events s ++ [EvPrintln "Stop capturing"; EvStop])
      /\ In EvStart (events s) /\ ~ In EvStop (events s)
  | Looping s =>
      loopbackCaptureSharedTimerDriven (session 2 (fun _ => false) (Nat.leb 1)) 3 0
      = Running (events s)
      /\ In EvStart (events s) /\ ~ In EvStop (events s)
  end.
Proof.
  apply (session_stopped_only_after_normal_exit
           (session 2 (fun _ => false) (Nat.leb 1)) 3 0 (override mix_format) 8820 steady_start).
  - apply steady_wf. lia.
  - reflexivity.
Defined.

(** What a capture that returned without error has in [audio]. *)
Lemma capture_result env fuel duration a t :
  wf_env env ->
  loopbackCaptureSharedTimerDriven env fuel duration = Returned (Some a) None t ->
  same_format (new_audio (override mix_format)) a
  /\ DataSize a = Z.of_nat (List.length (RawData a)) mod 2 ^ 32
  /\ (4 | Z.of_nat (List.length (RawData a)))
  /\ Stop env = None.
Proof.
  intros He. unfold loopbackCaptureSharedTimerDriven.
  destruct (setup env duration) as [a0 e0 t0|wfx B s0] eqn:Hs; [discriminate|].
  destruct (setup_Ready _ _ _ _ _ Hs) as (w & _ & Ew & Ea & _ & _).
  assert (Hb : 0 <= NBlockAlign wfx) by (rewrite Ew; cbn; lia).
  assert (U0 : is_u32 (DataSize (audio s0))) by (rewrite Ea; unfold is_u32; cbn; lia).
  assert (I0 : DataSize (audio s0) = u32 (Z.of_nat (List.length (RawData (audio s0)))))
    by (rewrite Ea; reflexivity).
  pose proof (loop_extends env wfx B duration fuel 0 s0 He Hb U0) as X.
  destruct (extends_invariant _ _ X I0) as [I _].
  destruct (loop_accounts env wfx B duration He Hb fuel 0 s0) as (evs & _ & [_ Bq D _ _]).
  pose proof (loop_format env wfx B duration fuel 0 s0) as Fm.
  destruct (loop env wfx B duration fuel 0 s0) as [s|s|e s]; try discriminate.
  cbn [result_state] in *. intros H. injection H as <- HS _.
  split; [rewrite Ea in Fm; exact Fm|]. split; [exact I|]. split; [|exact HS].
  rewrite Ea in Bq. cbn [new_audio set_BitsPerSample set_BlockAlign set_AvgBytesPerSec
    set_SamplesPerSec set_Channels zero_WAVEFormat RawData List.length] in Bq.
  rewrite Ew in D. change (NBlockAlign (override w)) with 4 in D.
  replace (Z.of_nat (List.length (RawData (audio s)))) with (bytes_read evs) by lia.
  exact D.
Qed.

Lemma run_success env fuel filename duration a t :
  run env fuel filename duration = Returned (Some a) None t ->
  exists t0,
    loopbackCaptureSharedTimerDriven env fuel duration = Returned (Some a) None t0
    /\ WriteFile env filename (Bytes a) = None
    /\ filename <> ""%string
    /\ t = t0 ++ [EvWriteFile filename (Bytes a); EvPrintln "Successfully done"].
Proof.
  unfold run. destruct (String.eqb filename "") eqn:Ef; [discriminate|].
  apply String.eqb_neq in Ef.
  destruct (loopbackCaptureSharedTimerDriven env fuel duration) as [[a'|] [e|] t0|t0];
    try discriminate.
  cbv zeta. destruct (WriteFile env filename (Bytes a')) eqn:Ew; [discriminate|].
  intros H. injection H as <- <-. exists t0. rewrite <- app_assoc.
  split; [reflexivity|]. split; [exact Ew|]. split; [exact Ef|reflexivity].
Qed.

(** X9.  Whenever [run] returns without error after a capture, the one
    file it wrote is a WAV container of the target profile (PCM tag 1, 2
    channels, 44100 Hz, 176400 bytes per second, block alignment 4, 16
    bits) whose payload is a whole number of 4-byte frames; its data-size
    field is the payload length modulo 2^32, and below 2^32 - 36 bytes
    it is the payload length and the RIFF size is the file length minus
    8. *)
Theorem written_file_is_a_wav env fuel filename duration a t :
  wf_env env ->
  run env fuel filename duration = Returned (Some a) None t ->
  files_written t = [(filename, Bytes a)]
  /\ exists h,
       decode_header (Bytes a) = Some h
       /\ h_fmtSize h = 16 /\ h_formatTag h = 1 /\ h_channels h = 2
       /\ h_samplesPerSec h = 44100 /\ h_avgBytesPerSec h = 176400
       /\ h_blockAlign h = 4 /\ h_bitsPerSample h = 16
       /\ h_dataSize h = Z.of_nat (List.length (payload (Bytes a))) mod 2 ^ 32
       /\ (4 | Z.of_nat (List.length (payload (Bytes a))))
       /\ (Z.of_nat (List.length (payload (Bytes a))) < 2 ^ 32 - 36 ->
           h_dataSize h = Z.of_nat (List.length (payload (Bytes a)))
           /\ h_riffSize h = Z.of_nat (List.length (Bytes a)) - 8).
Proof.
  intros He Hr.
  destruct (run_success env fuel filename duration a t Hr) as (t0 & Ec & _ & _ & ->).
  pose proof (capture_writes_nothing env fuel duration) as Hw. rewrite Ec in Hw.
  cbn [outcome_trace] in Hw.
  destruct (capture_result env fuel duration a t0 He Ec) as ((_ & Fc & Fs & Fa & Fb & Fp) & I & D & _).
  cbn in Fc, Fs, Fa, Fb, Fp.
  split; [rewrite files_written_app, Hw; reflexivity|].
  eexists. split; [apply decode_header_Bytes|].
  cbn [h_channels h_samplesPerSec h_avgBytesPerSec h_blockAlign h_bitsPerSample
       h_dataSize h_formatTag h_fmtSize h_riffSize].
  rewrite payload_Bytes, Bytes_length, Fc, Fs, Fa, Fb, Fp.
  assert (U : 0 <= DataSize a < 2 ^ 32) by (rewrite I; apply Z.mod_pos_bound; lia).
  pose proof (u32_range (DataSize a + 36)) as U'. unfold is_u32 in U'.
  change (256 ^ Z.of_nat 4) with (2 ^ 32) in *.
  rewrite !le_value_le_bytes
    by first [ change (256 ^ Z.of_nat 4) with (2 ^ 32); lia
             | change (256 ^ Z.of_nat 2) with (2 ^ 16); lia ].
  split; [reflexivity|]. split; [reflexivity|]. split; [reflexivity|].
  split; [reflexivity|]. split; [reflexivity|]. split; [reflexivity|].
  split; [reflexivity|]. split; [exact I|]. split; [exact D|].
  intros Hlt.
  assert (E : DataSize a = Z.of_nat (List.length (RawData a)))
    by (rewrite I; apply Z.mod_small; lia).
  split; [exact E|]. rewrite Z.mod_small by lia. lia.
Qed.

Lemma written_file_is_a_wav_witness :
  exists a t,
    run (session 2 (Nat.leb 1) (fun _ => false)) 3 "out.wav" 0 = Returned (Some a) None t
    /\ files_written t = [("out.wav"%string, Bytes a)]
    /\ exists h, decode_header (Bytes a) = Some h /\ h_dataSize h = 8.
Proof.
  assert (R : exists a t,
    run (session 2 (Nat.leb 1) (fun _ => false)) 3 "out.wav" 0 = Returned (Some a) None t
    /\ List.length (RawData a) = 8%nat).
  { eexists. eexists. split; [vm_compute; reflexivity|]. reflexivity. }
  destruct R as (a & t & R & L). exists a, t. split; [exact R|].
  destruct (written_file_is_a_wav (session 2 (Nat.leb 1) (fun _ => false)) 3 "out.wav" 0 a t)
    as (W & h & E & _ & _ & _ & _ & _ & _ & _ & Dz & _).
  - apply steady_wf. lia.
  - exact R.
  - split; [exact W|]. exists h. split; [exact E|].
    rewrite Dz, payload_Bytes, L. reflexivity.
Defined.

(** A loop that was left stays left, however many rounds are allowed. *)
Lemma loop_Left_more env wfx bufferFrameSize duration n k s s' extra :
  loop env wfx bufferFrameSize duration n k s = Left s' ->
  loop env wfx bufferFrameSize duration (n + extra) k s = Left s'.
Proof. intros H. rewrite loop_app, H. reflexivity. Qed.

(** X6.  With a positive requested duration, no interrupt, no failing
    call and at least one frame (at most [maxFrames]) in every packet,
    the capture returns: from the stated number of rounds on,
    [loopbackCaptureSharedTimerDriven] returns the same audio, which
    holds more than the requested duration and less than the request
    plus three nanoseconds plus one packet, with [DataSize] equal to the
    length of [RawData]. *)
Theorem positive_duration_capture_completes env duration maxFrames wfx bufferFrameSize s0 :
  0 < duration ->
  176400 * (duration + 3) + 4 * maxFrames * 1000000000 <= 4294967295 * 1000000000 ->
  flowing env maxFrames 0 ->
  setup env duration = Ready wfx bufferFrameSize s0 ->
  let rounds := (Z.to_nat (176400 * (duration + 3) / 4000000000 + 1) + 2)%nat in
  exists a t,
    (forall extra,
        loopbackCaptureSharedTimerDriven env (rounds + extra) duration
        = Returned (Some a) (Stop env) t)
    /\ 176400 * duration < DataSize a * 1000000000
    /\ DataSize a * 1000000000 < 176400 * (duration + 3) + 4 * maxFrames * 1000000000
    /\ DataSize a = Z.of_nat (List.length (RawData a)).
Proof.
  intros Hd Hw Hf Hs rounds.
  destruct (setup_Ready _ _ _ _ _ Hs) as (w & _ & Ew & Ea & Hc & _).
  set (n := Z.to_nat (176400 * (duration + 3) / 4000000000 + 1)).
  assert (Hn : 176400 * (duration + 3) <= 4000000000 * Z.of_nat n).
  { unfold n. rewrite Z2Nat.id.
    - pose proof (Z.div_mod (176400 * (duration + 3)) 4000000000 ltac:(lia)).
      pose proof (Z.mod_pos_bound (176400 * (duration + 3)) 4000000000 ltac:(lia)). lia.
    - assert (0 <= 176400 * (duration + 3) / 4000000000) by (apply Z.div_pos; lia). lia. }
  assert (D0 : DataSize (audio s0) = 0) by (rewrite Ea; reflexivity).
  assert (R0 : RawData (audio s0) = []) by (rewrite Ea; reflexivity).
  assert (Hm : 0 <= maxFrames).
  { destruct (Hf 0%nat (Nat.le_refl 0)) as (_ & (p & _ & Hp) & _). lia. }
  destruct (flowing_rounds env w bufferFrameSize duration maxFrames n 0 s0)
    as (s' & E & C & P & G & U & L); try assumption; try lia.
  - rewrite Ea. unfold target_profile. cbn. repeat split.
  - rewrite <- Ew in E. rewrite D0, R0 in L. cbn [List.length] in L.
    assert (Hu : is_u32 (DataSize (audio s'))).
    { unfold is_u32. lia. }
    exists (audio s'), (events s' ++ [EvPrintln "Stop capturing"; EvStop]).
    split; [|split; [|split]].
    + intros extra. unfold loopbackCaptureSharedTimerDriven. rewrite Hs.
      unfold rounds. fold n. rewrite (loop_Left_more _ _ _ _ _ _ _ s' extra E). reflexivity.
    + apply (proj1 (gate_general (audio s') duration P Hu Hd)). exact G.
    + exact U.
    + lia.
Qed.

Lemma positive_duration_capture_completes_witness :
  exists a t,
    (forall extra,
        loopbackCaptureSharedTimerDriven (steady_env 441)
          ((Z.to_nat (176400 * (20000000 + 3) / 4000000000 + 1) + 2)%nat + extra) 20000000
        = Returned (Some a) (Stop (steady_env 441)) t)
    /\ 176400 * 20000000 < DataSize a * 1000000000
    /\ DataSize a * 1000000000 < 176400 * (20000000 + 3) + 4 * 441 * 1000000000
    /\ DataSize a = Z.of_nat (List.length (RawData a)).
Proof.
  refine (positive_duration_capture_completes (steady_env 441) 20000000 441
            (override mix_format) 8820
            (mkLoopState true (new_audio (override mix_format)) 10000000
               (steady_banner ++
                [EvStart;
                 EvPrintln "Start capturing loopback audio with shared-timer-driven mode";
                 EvSleep 10000000])) _ _ _ _).
  - lia.
  - lia.
  - intros j _. split; [reflexivity|]. split.
    + exists (mkPacket 4096 441 0 0 0). split; [reflexivity|]. cbn. lia.
    + split; [exists 0; reflexivity|]. intros n. reflexivity.
  - reflexivity.
Defined.

(** ** More about the encoder *)

(** X11.  Two well-formed values have the same encoding exactly when
    they agree on every field except [FormatTag]: [Bytes] is injective
    on the fields it writes and never looks at [FormatTag]. *)
Theorem Bytes_determines_all_but_FormatTag (v v' : WAVEFormat) :
  wf_WAVEFormat v -> wf_WAVEFormat v' ->
  (Bytes v = Bytes v' <->
   Channels v = Channels v' /\ SamplesPerSec v = SamplesPerSec v'
   /\ AvgBytesPerSec v = AvgBytesPerSec v' /\ BlockAlign v = BlockAlign v'
   /\ BitsPerSample v = BitsPerSample v' /\ DataSize v = DataSize v'
   /\ RawData v = RawData v').
Proof.
  intros [_ Hc Hs Ha Hb Hp Hd] [_ Hc' Hs' Ha' Hb' Hp' Hd'].
  unfold is_u16, is_u32 in *. split.
  - intros E.
    assert (F : forall f : Header -> Z,
               option_map f (decode_header (Bytes v))
               = option_map f (decode_header (Bytes v')))
      by (intros f; rewrite E; reflexivity).
    rewrite !decode_header_Bytes in F. cbn [option_map] in F.
    pose proof (F h_channels) as E1. pose proof (F h_samplesPerSec) as E2.
    pose proof (F h_avgBytesPerSec) as E3. pose proof (F h_blockAlign) as E4.
    pose proof (F h_bitsPerSample) as E5. pose proof (F h_dataSize) as E6.
    cbn [h_channels h_samplesPerSec h_avgBytesPerSec h_blockAlign h_bitsPerSample
         h_dataSize] in E1, E2, E3, E4, E5, E6.
    pose proof (f_equal payload E) as Ep. rewrite !payload_Bytes in Ep.
    rewrite !le_value_le_bytes in E1, E2, E3, E4, E5, E6
      by first [ change (256 ^ Z.of_nat 4) with (2 ^ 32); lia
               | change (256 ^ Z.of_nat 2) with (2 ^ 16); lia ].
    repeat split; congruence.
  - intros (E1 & E2 & E3 & E4 & E5 & E6 & E7).
    rewrite !Bytes_eq. unfold canonical_header.
    rewrite E1, E2, E3, E4, E5, E6, E7. reflexivity.
Qed.

Lemma Bytes_determines_all_but_FormatTag_witness :
  Bytes (mkWAVEFormat 0 2 44100 176400 4 16 2 [x01; x02])
  = Bytes (mkWAVEFormat 1 2 44100 176400 4 16 2 [x01; x02]).
Proof.
  apply (proj2 (Bytes_determines_all_but_FormatTag
                  (mkWAVEFormat 0 2 44100 176400 4 16 2 [x01; x02])
                  (mkWAVEFormat 1 2 44100 176400 4 16 2 [x01; x02])
                  ltac:(split; cbn; unfold is_u16, is_u32; lia)
                  ltac:(split; cbn; unfold is_u16, is_u32; lia))).
  cbn. repeat split.
Defined.

(** X12.  When [DataSize] is the length of [RawData], the RIFF size
    field is the length of the output minus 8 up to 4294967259 bytes of
    data; above that [DataSize + 36] wraps round and the field is
    smaller than 36, and smaller than the data size it should contain. *)
Theorem riff_size_field (v : WAVEFormat) :
  DataSize v = Z.of_nat (List.length (RawData v)) -> DataSize v < 2 ^ 32 ->
  (DataSize v <= 4294967259 ->
     le_value (slice 4 8 (Bytes v)) = Z.of_nat (List.length (Bytes v)) - 8)
  /\ (4294967259 < DataSize v ->
      le_value (slice 4 8 (Bytes v)) = DataSize v - 4294967260
      /\ le_value (slice 4 8 (Bytes v)) < 36
      /\ le_value (slice 4 8 (Bytes v)) < le_value (slice 40 44 (Bytes v))).
Proof.
  intros Hl Hu.
  assert (H0 : 0 <= DataSize v) by lia.
  rewrite slice_Bytes_riffSize, slice_Bytes_dataSize, Bytes_length.
  pose proof (u32_range (DataSize v + 36)) as U. unfold is_u32 in U.
  change (256 ^ Z.of_nat 4) with (2 ^ 32) in *.
  rewrite !le_value_le_bytes by (change (256 ^ Z.of_nat 4) with (2 ^ 32); lia).
  split; intros H.
  - rewrite Z.mod_small by lia. lia.
  - assert (E : (DataSize v + 36) mod 2 ^ 32 = DataSize v - 4294967260).
    { symmetry. apply (Z.mod_unique _ _ 1); lia. }
    rewrite E. lia.
Qed.

Lemma riff_size_field_witness :
  le_value (slice 4 8 (Bytes (mkWAVEFormat 0 2 44100 176400 4 16 4 [x01; x02; x03; x04])))
  = Z.of_nat (List.length (Bytes (mkWAVEFormat 0 2 44100 176400 4 16 4 [x01; x02; x03; x04]))) - 8.
Proof.
  apply (proj1 (riff_size_field (mkWAVEFormat 0 2 44100 176400 4 16 4 [x01; x02; x03; x04])
                  eq_refl ltac:(cbn; lia))).
  cbn. lia.
Defined.

(** ** More about a round *)

(** X13.  The copy loop of lines 254-257 keeps what [RawData] held
    and appends [count] bytes: the byte added at position [i] is the one
    at address [start + i]. *)
Theorem copy_loop_appends_region mem start count raw :
  let out := copy_loop mem start 0 count raw in
  List.length out = (List.length raw + count)%nat
  /\ firstn (List.length raw) out = raw
  /\ (forall i, (i < List.length raw)%nat -> nth_error out i = nth_error raw i)
  /\ (forall i, (i < count)%nat ->
        nth_error out (List.length raw + i) = Some (mem (u64 (start + Z.of_nat i)))).
Proof.
  cbv zeta. rewrite copy_loop_region, Z.add_0_r.
  split; [rewrite length_app, region_length; reflexivity|].
  split; [rewrite firstn_app, Nat.sub_diag, firstn_all; cbn; apply app_nil_r|].
  split.
  - intros i Hi. apply nth_error_app1. exact Hi.
  - intros i Hi. rewrite nth_error_app2 by lia.
    replace (List.length raw + i - List.length raw)%nat with i by lia.
    unfold region. rewrite nth_error_map, nth_error_seq.
    destruct (Nat.ltb_spec i count); [|lia]. reflexivity.
Qed.

Lemma copy_loop_appends_region_witness :
  nth_error (copy_loop (fun a => Binary.byte_of_Z a) 4096 0 4 [xff]) (1 + 2)
  = Some (Binary.byte_of_Z (u64 (4096 + Z.of_nat 2))).
Proof.
  apply (proj2 (proj2 (proj2 (copy_loop_appends_region
                                (fun a => Binary.byte_of_Z a) 4096 4 [xff]))) 2%nat).
  lia.
Defined.

(** X14.  The period of line 263 at 44100 Hz: zero when the padding
    equals the buffer size, (bufferFrameSize - padding) / 44100 s to
    within two nanoseconds when it is smaller, and, because the
    subtraction is done in [uint32], more than
    (2^32 - (padding - bufferFrameSize)) / 44100 s, over a day, when the
    padding exceeds the buffer size. *)
Theorem sleep_period_wraps (bufferFrameSize padding : Z) :
  is_u32 bufferFrameSize -> is_u32 padding ->
  (padding = bufferFrameSize -> nextPeriod bufferFrameSize padding 44100 = 0)
  /\ (padding < bufferFrameSize ->
      (bufferFrameSize - padding) * 1000000000 - 2 * 44100
        < 44100 * nextPeriod bufferFrameSize padding 44100
        < (bufferFrameSize - padding) * 1000000000 + 44100)
  /\ (bufferFrameSize < padding ->
      (4294967296 - (padding - bufferFrameSize)) * 1000000000 - 2 * 44100
        < 44100 * nextPeriod bufferFrameSize padding 44100).
Proof.
  intros Hb Hp. unfold is_u32 in *.
  split; [|split].
  - intros ->. unfold nextPeriod. rewrite Z.sub_diag. vm_compute. reflexivity.
  - intros H. apply nextPeriod_bounds. lia.
  - intros H.
    assert (E : nextPeriod bufferFrameSize padding 44100
                = nextPeriod (4294967296 - (padding - bufferFrameSize)) 0 44100).
    { unfold nextPeriod. f_equal. f_equal. f_equal. f_equal. unfold u32.
      rewrite Z.sub_0_r.
      rewrite (Z.mod_small (4294967296 - (padding - bufferFrameSize))) by lia.
      symmetry. apply (Z.mod_unique _ _ (-1)); lia. }
    rewrite E.
    pose proof (nextPeriod_bounds (4294967296 - (padding - bufferFrameSize)) 0 ltac:(lia)) as B.
    rewrite Z.sub_0_r in B. lia.
Qed.

Lemma sleep_period_wraps_witness :
  (4294967296 - (8821 - 8820)) * 1000000000 - 2 * 44100
    < 44100 * nextPeriod 8820 8821 44100.
Proof.
  apply (proj2 (proj2 (sleep_period_wraps 8820 8821 ltac:(unfold is_u32; lia)
                         ltac:(unfold is_u32; lia)))).
  lia.
Defined.

(** ** More about a run *)

Lemma iteration_capture_events env wfx bufferFrameSize duration k s :
  Forall capture_event (events s) ->
  Forall capture_event
    (events (step_state (iteration env wfx bufferFrameSize duration k s))).
Proof.
  intros F.
  assert (P : forall ev t, Forall capture_event t -> capture_event ev ->
                Forall capture_event (t ++ [ev])).
  { intros ev t Ft Fe. apply Forall_app. split; [exact Ft|]. constructor; [exact Fe|constructor]. }
  unfold iteration.
  destruct (isCapturing s); cbn [negb step_state]; [|exact F].
  destruct (interrupted env k).
  { cbn [set_isCapturing emit events]. apply P; [exact F|]. cbn. discriminate. }
  destruct (shouldStop duration (currentDuration (audio s))); [exact F|].
  destruct (GetBuffer env k) as [e|p]; [apply P; [exact F|exact I]|].
  destruct (availableFrameSize p =? 0); [apply P; [exact F|exact I]|].
  cbv zeta.
  destruct (GetCurrentPadding env k) as [e|padding].
  { cbn. repeat apply P; try exact I. exact F. }
  destruct (ReleaseBuffer env k (availableFrameSize p));
    cbn; repeat apply P; try exact I; exact F.
Qed.

Lemma loop_capture_events env wfx bufferFrameSize duration fuel : forall k s,
  Forall capture_event (events s) ->
  Forall capture_event
    (events (result_state (loop env wfx bufferFrameSize duration fuel k s))).
Proof.
  induction fuel as [|fuel IH]; intros k s F; cbn [loop]; [exact F|].
  pose proof (iteration_capture_events env wfx bufferFrameSize duration k s F) as H.
  destruct (iteration env wfx bufferFrameSize duration k s) as [s1|s1|e s1];
    cbn [step_state result_state] in *; try exact H.
  apply IH. exact H.
Qed.

Lemma capture_capture_events env fuel duration :
  Forall capture_event
    (outcome_trace (loopbackCaptureSharedTimerDriven env fuel duration)).
Proof.
  unfold loopbackCaptureSharedTimerDriven.
  destruct (setup env duration) as [a e t|wfx B s0] eqn:Hs.
  - cbn [outcome_trace]. revert Hs. unfold setup.
    repeat match goal with
           | |- context [match ?x with _ => _ end] => destruct x
           end; intros H; inversion H; cbn [app];
      repeat (constructor; [first [exact I | cbn; discriminate]|]); constructor.
  - assert (F0 : Forall capture_event (events s0)).
    { revert Hs. unfold setup.
      repeat match goal with
             | |- context [match ?x with _ => _ end] => destruct x
             end; intros H; inversion H; unfold println_if;
        destruct (duration <=? 0); cbn [app];
        repeat (constructor; [first [exact I | cbn; discriminate]|]); constructor. }
    pose proof (loop_capture_events env wfx B duration fuel 0 s0 F0) as F.
    destruct (loop env wfx B duration fuel 0 s0) as [s|s|e s];
      cbn [result_state outcome_trace] in *; try exact F.
    apply Forall_app. split; [exact F|]. repeat constructor. discriminate.
Qed.

(** X10.  With an empty file name [run] returns at once, without
    touching the session.  "Successfully done" is printed exactly when
    [run] returns no error after a capture; when [WriteFile] fails its
    error is returned and the notice is not printed. *)
Theorem run_reports_success_only_after_writing env fuel filename duration :
  let r := run env fuel filename duration in
  (filename = ""%string -> r = Returned None None [])
  /\ (In (EvPrintln "Successfully done") (outcome_trace r)
      <-> exists a t, r = Returned (Some a) None t)
  /\ (forall a t0 e,
        filename <> ""%string ->
        loopbackCaptureSharedTimerDriven env fuel duration = Returned (Some a) None t0 ->
        WriteFile env filename (Bytes a) = Some e ->
        r = Returned (Some a) (Some e) (t0 ++ [EvWriteFile filename (Bytes a)])).
Proof.
  intros r.
  pose proof (capture_capture_events env fuel duration) as F.
  assert (N : forall t, Forall capture_event t -> ~ In (EvPrintln "Successfully done") t).
  { intros t Ft H. rewrite Forall_forall in Ft. apply (Ft _ H). reflexivity. }
  split; [|split].
  - intros ->. reflexivity.
  - split.
    + intros H. unfold r, run in *.
      destruct (String.eqb filename ""); [destruct H|].
      destruct (loopbackCaptureSharedTimerDriven env fuel duration) as [[a|] [e|] t|t];
        cbn [outcome_trace] in *; try (exfalso; exact (N _ F H)).
      cbv zeta in *. destruct (WriteFile env filename (Bytes a)).
      * exfalso. cbn [outcome_trace] in H. apply in_app_or in H. destruct H as [H|H].
        -- exact (N _ F H).
        -- destruct H as [H|[]]. discriminate.
      * eexists. eexists. reflexivity.
    + intros (a & t & E). rewrite E. cbn [outcome_trace].
      destruct (run_success env fuel filename duration a t E) as (t0 & _ & _ & _ & ->).
      apply in_or_app. right. right. left. reflexivity.
  - intros a t0 e Hf Ec Ew. unfold r, run.
    apply String.eqb_neq in Hf. rewrite Hf, Ec. cbv zeta. rewrite Ew. reflexivity.
Qed.

Lemma run_reports_success_only_after_writing_witness :
  run (session 2 (Nat.leb 1) (fun _ => false)) 3 "" 0 = Returned None None [].
Proof.
  apply (proj1 (run_reports_success_only_after_writing
                  (session 2 (Nat.leb 1) (fun _ => false)) 3 "" 0)).
  reflexivity.
Defined.

Lemma i64_small x : - 2 ^ 63 <= x < 2 ^ 63 -> i64 x = x.
Proof. intros H. unfold i64. rewrite Z.mod_small by lia. lia. Qed.

(** X15.  When the part before the loop succeeds, the session was
    initialized with the overridden format, not the negotiated one; the
    loop starts with an empty [audio] of that format and the buffer size
    the session reported; the first sleep is the default device period,
    converted from 100 ns units to nanoseconds; [Start] was called once,
    with nothing but output before it and neither a poll nor [Stop]
    after it; and "Press Ctrl-C to stop capturing" was printed exactly
    when the requested duration is zero or negative. *)
Theorem setup_hands_over env duration wfx bufferFrameSize s0 :
  setup env duration = Ready wfx bufferFrameSize s0 ->
  exists w defaultPeriod minimumPeriod,
    GetMixFormat env = inr w
    /\ GetDevicePeriod env = inr (defaultPeriod, minimumPeriod)
    /\ GetBufferSize env = inr bufferFrameSize
    /\ Initialize env (override w) = None
    /\ wfx = override w
    /\ audio s0 = new_audio (override w)
    /\ capturingPeriod s0 = i64 (defaultPeriod * 100)
    /\ (- 92233720368547758 <= defaultPeriod <= 92233720368547758 ->
        capturingPeriod s0 = defaultPeriod * 100
        /\ last (events s0) EvStop = EvSleep (defaultPeriod * 100))
    /\ (exists pre t, events s0 = pre ++ EvStart :: t /\ Forall is_output pre
                      /\ ~ In EvStop t /\ ~ In EvStart t /\ ~ In EvGetBuffer t)
    /\ (In (EvPrintln "Press Ctrl-C to stop capturing") (events s0) <-> duration <= 0).
Proof.
  intros Hs. pose proof (setup_events _ _ _ _ _ Hs) as Hev. revert Hs.
  unfold setup.
  destruct (CoInitializeEx env); [discriminate|].
  destruct (CoCreateInstance env); [discriminate|].
  destruct (GetDefaultAudioEndpoint env); [discriminate|].
  destruct (OpenPropertyStore env); [discriminate|].
  destruct (GetValue env) as [e|name]; [discriminate|].
  destruct (Activate env); [discriminate|].
  destruct (GetMixFormat env) as [e|w]; [discriminate|].
  destruct (GetDevicePeriod env) as [e|[dp mp]]; [discriminate|].
  destruct (Initialize env (override w)) eqn:Ei; [discriminate|].
  destruct (GetBufferSize env) as [e|B]; [discriminate|].
  destruct (GetService env); [discriminate|].
  destruct (Start env); [discriminate|].
  intros H. injection H as <- <- <-. exists w, dp, mp.
  cbn [audio capturingPeriod events] in *.
  repeat (split; [reflexivity|]). split; [exact Ei|].
  repeat (split; [reflexivity|]).
  split; [|split; [exact Hev|]].
  - intros Hr. rewrite i64_small by lia. split; [reflexivity|].
    unfold println_if. destruct (duration <=? 0); reflexivity.
  - unfold println_if. destruct (Z.leb_spec duration 0) as [Hle|Hgt]; cbn; split;
      intros Hin; try lia.
    + repeat (first [left; reflexivity | right]).
    + repeat (destruct Hin as [Hin|Hin]; [discriminate|]). destruct Hin.
Qed.

Lemma setup_hands_over_witness :
  exists w defaultPeriod minimumPeriod,
    GetMixFormat (steady_env 441) = inr w
    /\ GetDevicePeriod (steady_env 441) = inr (defaultPeriod, minimumPeriod)
    /\ capturingPeriod steady_start = i64 (defaultPeriod * 100).
Proof.
  destruct (setup_hands_over (steady_env 441) 0 (override mix_format) 8820 steady_start eq_refl)
    as (w & dp & mp & E1 & E2 & _ & _ & _ & _ & E3 & _).
  exists w, dp, mp. repeat split; assumption.
Defined.
